(** * SafeHarbor community forum: pseudonyms, anonymous ids and the forum API

    A shallow embedding of the TypeScript sources of the portal:
    - [src/utils/pseudonym.ts]      (hashString, generatePseudonym)
    - [src/contexts/CommunityContext.tsx] (generateAnonymousId)
    - [src/api/forum.ts]            (the placeholder forum handler)
    - [pages/api/forum.ts]          (the forum handler over the hosted store)
    - [pages/community/new.tsx], [pages/community/thread/[id].tsx]
      (the client-side checks of the two forms)
    - [src/components/ForumThreadCard.tsx], [src/components/ForumPost.tsx]
      (formatRelativeTime)
    - [src/contexts/UserContext.tsx] (the stored user id)
    - [pages/api/sos-trigger.ts], [pages/api/chat.ts] (the guards of the
      SOS and chat handlers)
    - [pages/api/journal.ts] (the journal and safety-plan handler over the
      hosted store)

    JavaScript strings are sequences of UTF-16 code units, numbers that the
    code keeps integral are integers of [Z] (all of them stay far below
    2^53, where the arithmetic of doubles is exact), and the 32-bit
    operators [>>> 0] and [>>] are written out with their wrap-around.  A
    number that is not finite appears only as the [null] it is serialised
    to.  What a function reads from outside (the clock, the random number,
    the answers of the store) is an argument of its model. *)

From Stdlib Require Import ZArith NArith List String Ascii Bool Lia.
From Stdlib Require Import DecimalString QArith.
From stdpp Require Import base list sorting.

Import ListNotations.
Local Open Scope Z_scope.

(** ** JavaScript primitives used by the sources *)
Module Js.

(** A string is the list of its UTF-16 code units (each below 2^16). *)
Definition jsstring : Type := list N.

(** An ASCII literal of the sources as a JavaScript string. *)
Definition str (s : string) : jsstring :=
  map N_of_ascii (list_ascii_of_string s).

Definition jsstring_eqb (a b : jsstring) : bool :=
  bool_decide (a = b).

(** [x >>> 0]: ToUint32. *)
Definition to_uint32 (x : Z) : Z := x mod 2 ^ 32.

(** ToInt32: the signed reading of the low 32 bits. *)
Definition to_int32 (x : Z) : Z :=
  let u := to_uint32 x in
  if u <? 2 ^ 31 then u else u - 2 ^ 32.

(** [x >> n]: sign-propagating right shift of ToInt32 x. *)
Definition sar (x n : Z) : Z := Z.shiftr (to_int32 x) (n mod 32).

(** [a % b] on integers: the remainder takes the sign of the dividend. *)
Definition rem (a b : Z) : Z := Z.rem a b.

(** [arr[i]] with a numeric index: [undefined] (here [None]) unless
    [0 <= i < arr.length]. *)
Definition index {A} (arr : list A) (i : Z) : option A :=
  if i <? 0 then None else nth_error arr (Z.to_nat i).

Definition length_of {A} (l : list A) : Z := Z.of_nat (length l).

(** Decimal rendering of an integer, as string conversion does. *)
Definition decimal (z : Z) : jsstring :=
  str (NilZero.string_of_int (Z.to_int z)).

(** A template-literal hole holding a string or [undefined]. *)
Definition show (v : option jsstring) : jsstring :=
  match v with
  | Some s => s
  | None => str "undefined"
  end.

(** [v || d] for a string-or-undefined [v]: the empty string is falsy. *)
Definition or_else (v : option jsstring) (d : jsstring) : jsstring :=
  match v with
  | Some (c :: s) => c :: s
  | _ => d
  end.

End Js.

(** ** src/utils/pseudonym.ts *)
Module Pseudonym.
Import Js.

Definition ADJECTIVES : list jsstring :=
  map str ["Brave"; "Calm"; "Quiet"; "Gentle"; "Kind";
           "Steady"; "Hopeful"; "Bright"; "Caring"; "Soft"]%string.

Definition NOUNS : list jsstring :=
  map str ["Harbor"; "Star"; "River"; "Willow"; "Lantern";
           "Sky"; "Anchor"; "Horizon"; "Oak"; "Ember"]%string.

(** The loop body of [hashString]. *)
Definition hash_step (hash : Z) (c : N) : Z :=
  to_uint32 (hash * 31 + Z.of_N c).

Definition hashString (input : jsstring) : Z :=
  fold_left hash_step input 0.

Definition generatePseudonym (anonymousId : option jsstring) : jsstring :=
  let hash := hashString (or_else anonymousId (str "anon")) in
  let adjective := index ADJECTIVES (rem hash (length_of ADJECTIVES)) in
  let noun := index NOUNS (rem (sar hash 8) (length_of NOUNS)) in
  let number := rem hash 900 + 100 in
  show adjective ++ show noun ++ str "-" ++ decimal number.

End Pseudonym.

(** ** Regular expressions of the sources

    The patterns are used through [RegExp.prototype.test] only, without the
    [g] flag, so what matters is whether some substring matches.  The
    matcher below decides exactly that, by backtracking with a continuation
    over the position (previous code unit, remaining input). *)
Module Regex.
Import Js.

Inductive regex : Type :=
| Class (p : N -> bool)          (* one code unit of a class [[...]] *)
| Seq (r1 r2 : regex)            (* r1r2 *)
| Opt (r : regex)                (* r? *)
| Star (r : regex)               (* r* *)
| WordBoundary.                  (* \b *)

Definition Plus (r : regex) : regex := Seq r (Star r).       (* r+ *)

Fixpoint Times (n : nat) (r : regex) : regex :=               (* r{n}, n >= 1 *)
  match n with
  | O => Opt (Class (fun _ => false))
  | 1%nat => r
  | S m => Seq r (Times m r)
  end.

Definition AtLeast (n : nat) (r : regex) : regex :=           (* r{n,} *)
  Seq (Times n r) (Star r).

Fixpoint seq (rs : list regex) : regex :=
  match rs with
  | [] => Opt (Class (fun _ => false))
  | [r] => r
  | r :: rs' => Seq r (seq rs')
  end.

(** Character classes. *)
Definition range (lo hi : ascii) (c : N) : bool :=
  ((N_of_ascii lo <=? c) && (c <=? N_of_ascii hi))%N.

Definition one_of (s : string) (c : N) : bool :=
  existsb (N.eqb c) (str s).

Definition union (ps : list (N -> bool)) (c : N) : bool :=
  existsb (fun p => p c) ps.

Definition digit : N -> bool := range "0" "9".                (* \d *)

Definition word_char : N -> bool :=                           (* \w *)
  union [range "a" "z"; range "A" "Z"; range "0" "9"; one_of "_"].

Definition is_word (c : option N) : bool :=
  match c with
  | Some c => word_char c
  | None => false
  end.

(** [\b] holds between a word character and a non-word character (or an
    end of the input). *)
Definition at_boundary (prev : option N) (s : jsstring) : bool :=
  xorb (is_word prev) (is_word (head s)).

Fixpoint matches (r : regex) (prev : option N) (s : jsstring)
         (k : option N -> jsstring -> bool) {struct r} : bool :=
  match r with
  | Class p =>
      match s with
      | c :: s' => p c && k (Some c) s'
      | [] => false
      end
  | Seq r1 r2 =>
      matches r1 prev s (fun prev' s' => matches r2 prev' s' k)
  | Opt r1 => matches r1 prev s k || k prev s
  | Star r1 =>
      (fix loop (fuel : nat) (prev : option N) (s : jsstring) : bool :=
         k prev s ||
         match fuel with
         | O => false
         | S fuel' =>
             matches r1 prev s
               (fun prev' s' =>
                  (length s' <? length s)%nat && loop fuel' prev' s')
         end) (length s) prev s
  | WordBoundary => at_boundary prev s && k prev s
  end.

Definition match_here (r : regex) (prev : option N) (s : jsstring) : bool :=
  matches r prev s (fun _ _ => true).

Fixpoint search (r : regex) (prev : option N) (s : jsstring) : bool :=
  match_here r prev s ||
  match s with
  | [] => false
  | c :: s' => search r (Some c) s'
  end.

(** [re.test(s)] *)
Definition test (r : regex) (s : jsstring) : bool := search r None s.

(** [/\b[A-Za-z0-9._%+-]+@[A-Za-z0-9.-]+\.[A-Z|a-z]{2,}\b/] *)
Definition emailPattern : regex :=
  seq [ WordBoundary;
        Plus (Class (union [range "A" "Z"; range "a" "z"; range "0" "9";
                            one_of "._%+-"]));
        Class (one_of "@");
        Plus (Class (union [range "A" "Z"; range "a" "z"; range "0" "9";
                            one_of ".-"]));
        Class (one_of ".");
        AtLeast 2 (Class (union [range "A" "Z"; one_of "|"; range "a" "z"]));
        WordBoundary ].

(** [/\b\d{3}[-.]?\d{3}[-.]?\d{4}\b/] *)
Definition phonePattern : regex :=
  seq [ WordBoundary;
        Times 3 (Class digit);
        Opt (Class (one_of "-."));
        Times 3 (Class digit);
        Opt (Class (one_of "-."));
        Times 4 (Class digit);
        WordBoundary ].

End Regex.

(** ** Values and requests of the API routes *)
Module Http.
Import Js.

(** A field of a parsed JSON body, restricted to scalars: absent
    ([undefined]), [null], a boolean, an integral number or a string. *)
Inductive value : Type :=
| VUndefined
| VNull
| VBool (b : bool)
| VNum (n : Z)
| VStr (s : jsstring).

(** ToBoolean *)
Definition truthy (v : value) : bool :=
  match v with
  | VUndefined | VNull => false
  | VBool b => b
  | VNum n => negb (n =? 0)
  | VStr s => negb (jsstring_eqb s [])
  end.

(** ToString *)
Definition to_string (v : value) : jsstring :=
  match v with
  | VUndefined => str "undefined"
  | VNull => str "null"
  | VBool true => str "true"
  | VBool false => str "false"
  | VNum n => decimal n
  | VStr s => s
  end.

(** A query parameter: absent or a string. *)
Definition param_truthy (p : option jsstring) : bool :=
  match p with
  | Some (_ :: _) => true
  | _ => false
  end.

Record Query : Type := {
  q_threadId : option jsstring;
  q_page : option jsstring;
  q_limit : option jsstring
}.

Record Body : Type := {
  b_title : value;
  b_content : value;
  b_authorId : value;
  b_threadId : value
}.

Record Request : Type := {
  method : jsstring;
  query : Query;
  body : Body
}.

(** What a handler run ends with: a response, or an uncaught exception. *)
Inductive outcome (B : Type) : Type :=
| Respond (status : Z) (b : B)
| Throw (error : jsstring).
Arguments Respond {B} status b.
Arguments Throw {B} error.

(** [s.startsWith(prefix)] *)
Fixpoint startsWith (s prefix : jsstring) : bool :=
  match prefix, s with
  | [], _ => true
  | p :: prefix', c :: s' => (c =? p)%N && startsWith s' prefix'
  | _ :: _, [] => false
  end.

(** White space and line terminators, as [trim] and [parseInt] skip them. *)
Definition is_space (c : N) : bool :=
  existsb (N.eqb c)
    [9; 10; 11; 12; 13; 32; 160; 5760; 8232; 8233; 8239; 8287; 12288; 65279]%N
  || ((8192 <=? c) && (c <=? 8202))%N.

Fixpoint trimStart (s : jsstring) : jsstring :=
  match s with
  | c :: s' => if is_space c then trimStart s' else s
  | [] => []
  end.

Definition trim (s : jsstring) : jsstring :=
  rev (trimStart (rev (trimStart s))).

(** The value of a digit in a radix, if it is one. *)
Definition digit_value (radix : Z) (c : N) : option Z :=
  let c := Z.of_N c in
  let v := if (48 <=? c) && (c <=? 57) then c - 48
           else if (97 <=? c) && (c <=? 122) then c - 97 + 10
           else if (65 <=? c) && (c <=? 90) then c - 65 + 10
           else radix in
  if v <? radix then Some v else None.

(** The longest prefix of digits, accumulated; [None] when there is none. *)
Fixpoint digits (radix : Z) (acc : option Z) (s : jsstring) : option Z :=
  match s with
  | c :: s' =>
      match digit_value radix c with
      | Some d => digits radix (Some (match acc with
                                      | Some a => a * radix + d
                                      | None => d
                                      end)) s'
      | None => acc
      end
  | [] => acc
  end.

(** A JavaScript number whose value is an integer, or is not finite.  The
    numbers of the handlers are read by [parseInt], combined with [+], [-]
    and [*] and rounded up by [Math.ceil], so no other value occurs. *)
Inductive number : Type :=
| NaN
| Infinite (negative : bool)
| Finite (z : Z).

(** The double nearest to an integer, ties to the even significand: an
    integer below [2^53] in magnitude is itself a double, a larger one
    keeps its 53 leading bits, and from [2^1024] on the result is an
    infinity. *)
Definition round_double (z : Z) : number :=
  let a := Z.abs z in
  if a <? 2 ^ 53 then Finite z
  else
    let e := Z.log2 a - 52 in
    let q := a / 2 ^ e in
    let r := a mod 2 ^ e in
    let half := 2 ^ (e - 1) in
    let q' := if r <? half then q
              else if half <? r then q + 1
              else if Z.even q then q else q + 1 in
    let v := q' * 2 ^ e in
    if 2 ^ 1024 <=? v then Infinite (z <? 0) else Finite (Z.sgn z * v).

Definition num_neg (a : number) : number :=
  match a with
  | NaN => NaN
  | Infinite s => Infinite (negb s)
  | Finite x => Finite (- x)
  end.

(** [a + b] *)
Definition num_add (a b : number) : number :=
  match a, b with
  | NaN, _ | _, NaN => NaN
  | Infinite s, Infinite t => if Bool.eqb s t then Infinite s else NaN
  | Infinite s, Finite _ | Finite _, Infinite s => Infinite s
  | Finite x, Finite y => round_double (x + y)
  end.

(** [a - b] *)
Definition num_sub (a b : number) : number := num_add a (num_neg b).

(** [a * b] *)
Definition num_mul (a b : number) : number :=
  match a, b with
  | NaN, _ | _, NaN => NaN
  | Infinite s, Infinite t => Infinite (xorb s t)
  | Infinite s, Finite y | Finite y, Infinite s =>
      if y =? 0 then NaN else Infinite (xorb s (y <? 0))
  | Finite x, Finite y => round_double (x * y)
  end.

(** A number as [JSON.stringify] writes it: [NaN] and the infinities
    become [null], here [None]. *)
Definition to_json (a : number) : option Z :=
  match a with
  | Finite z => Some z
  | _ => None
  end.

(** [parseInt(s)] without a radix: the integer the longest prefix of digits
    denotes, rounded to a double.  (For more than twenty significant
    decimal digits an engine may round from the first twenty; the
    properties below stay under [2^53], where nothing is rounded.) *)
Definition parseInt (s : jsstring) : number :=
  let s := trimStart s in
  let '(sign, s) := match s with
                    | 45%N :: s' => (-1, s')
                    | 43%N :: s' => (1, s')
                    | _ => (1, s)
                    end in
  let '(radix, s) := match s with
                     | 48%N :: 120%N :: s' => (16, s')
                     | 48%N :: 88%N :: s' => (16, s')
                     | _ => (10, s)
                     end in
  match digits radix None s with
  | Some n => round_double (sign * n)
  | None => NaN
  end.

(** [Math.ceil(count / limit)] for a row count, which is a non-negative
    integer below [2^53]: the quotient by an infinity is zero, the
    quotient by zero is an infinity or, for [0 / 0], [NaN], and the
    double nearest to any other quotient has the ceiling of the exact
    quotient. *)
Definition ceil_div (count : Z) (limit : number) : number :=
  match limit with
  | NaN => NaN
  | Infinite _ => Finite 0
  | Finite l =>
      if l =? 0 then (if count =? 0 then NaN else Infinite false)
      else Finite (- ((- count) / l))
  end.

End Http.

(** ** src/api/forum.ts: the placeholder forum handler *)
Module ForumMock.
Import Js Http Regex.

Record Created : Type := {
  c_id : jsstring;
  c_title : value;
  c_content : value;
  c_authorId : value;
  c_threadId : value;
  c_createdAt : Z
}.

(** The bodies of the responses; of the sample data only the fields that
    depend on the request or on the clock are kept. *)
Inductive json : Type :=
| Error (error : jsstring)
| MockThread (id : jsstring) (createdAt : Z)
| MockThreads (createdAt : Z) (page : option Z) (totalPages : Z)
| Post (c : Created).

(** [handler(req, res)], with [now] the reading of the clock. *)
Definition handler (now : Z) (req : Request) : outcome json :=
  if jsstring_eqb (method req) (str "GET") then
    let threadId := q_threadId (query req) in
    let page := default (str "1") (q_page (query req)) in
    if param_truthy threadId then
      Respond 200 (MockThread (default [] threadId) now)
    else
      Respond 200 (MockThreads now (to_json (parseInt page)) 1)
  else if jsstring_eqb (method req) (str "POST") then
    let title := b_title (body req) in
    let content := b_content (body req) in
    let authorId := b_authorId (body req) in
    let threadId := b_threadId (body req) in
    if negb (truthy authorId) || negb (truthy content) then
      Respond 400 (Error (str "Missing required fields"))
    else
      match authorId with
      | VStr a =>
          if negb (startsWith a (str "anon_")) then
            Respond 400 (Error (str "Invalid author ID format"))
          else if test emailPattern (to_string content) then
            Respond 400 (Error (str "Content cannot contain email addresses"))
          else
            Respond 201 (Post {| c_id := decimal now;
                                 c_title := title;
                                 c_content := content;
                                 c_authorId := authorId;
                                 c_threadId := threadId;
                                 c_createdAt := now |})
      | _ => Throw (str "TypeError: authorId.startsWith is not a function")
      end
  else
    Respond 405 (Error (str "Method not allowed")).

End ForumMock.

(** ** The hosted store

    The tables of [supabase_schema.sql] and the query shapes the handler
    issues through the client.  The store is an external service: besides
    the constraints of the schema (primary keys, the foreign key of
    [forum_posts.thread_id], [not null] columns) and its row level
    security (every table has policies for select and insert; only
    [safety_plans] has one for update) any request may be answered with an
    error, which the environment of a handler run decides ([fails]).
    Timestamps are points of one time line. *)
Module Store.
Import Js Http.

Record thread_row : Type := {
  t_id : jsstring;
  t_title : jsstring;
  t_author_id : jsstring;
  t_created_at : Z;
  t_last_activity : Z
}.

Record post_row : Type := {
  p_id : jsstring;
  p_thread_id : jsstring;
  p_content : jsstring;
  p_author_id : jsstring;
  p_created_at : Z
}.

Record Db : Type := {
  forum_threads : list thread_row;
  forum_posts : list post_row
}.

(** What one handler run gets from outside: the reading of its own clock
    ([new Date()]), and for the k-th request it sends to the store whether
    the store answers with an error, the uuid the store would generate and
    the reading of the store's clock ([now()]). *)
Record Env : Type := {
  now : Z;
  fails : nat -> bool;
  uuid : nat -> jsstring;
  db_now : nat -> Z
}.

Inductive result (A : Type) : Type :=
| Ok (data : A)
| Err (message : jsstring).
Arguments Ok {A} data.
Arguments Err {A} message.

Definition not_null (v : value) : bool :=
  match v with
  | VUndefined | VNull => false
  | _ => true
  end.

Definition has_thread (db : Db) (id : jsstring) : bool :=
  existsb (fun t => jsstring_eqb (t_id t) id) (forum_threads db).

Definition has_post (db : Db) (id : jsstring) : bool :=
  existsb (fun p => jsstring_eqb (p_id p) id) (forum_posts db).

(** [from('forum_threads').insert([{title, author_id}]).select().single()] *)
Definition insert_thread (env : Env) (k : nat) (db : Db)
           (title author_id : value) : result thread_row * Db :=
  if fails env k then (Err (str "store request failed"), db)
  else if negb (not_null title && not_null author_id) then
    (Err (str "null value violates not-null constraint"), db)
  else if has_thread db (uuid env k) then
    (Err (str "duplicate key value violates unique constraint"), db)
  else
    let row := {| t_id := uuid env k;
                  t_title := to_string title;
                  t_author_id := to_string author_id;
                  t_created_at := db_now env k;
                  t_last_activity := db_now env k |} in
    (Ok row, {| forum_threads := forum_threads db ++ [row];
                forum_posts := forum_posts db |}).

(** [from('forum_posts').insert([{thread_id, content, author_id}])] *)
Definition insert_post (env : Env) (k : nat) (db : Db)
           (thread_id content author_id : value) : result post_row * Db :=
  if fails env k then (Err (str "store request failed"), db)
  else if negb (not_null thread_id && not_null content && not_null author_id) then
    (Err (str "null value violates not-null constraint"), db)
  else if negb (has_thread db (to_string thread_id)) then
    (Err (str "insert violates foreign key constraint"), db)
  else if has_post db (uuid env k) then
    (Err (str "duplicate key value violates unique constraint"), db)
  else
    let row := {| p_id := uuid env k;
                  p_thread_id := to_string thread_id;
                  p_content := to_string content;
                  p_author_id := to_string author_id;
                  p_created_at := db_now env k |} in
    (Ok row, {| forum_threads := forum_threads db;
                forum_posts := forum_posts db ++ [row] |}).

Definition touch (id : jsstring) (ts : Z) (t : thread_row) : thread_row :=
  if jsstring_eqb (t_id t) id then
    {| t_id := t_id t; t_title := t_title t; t_author_id := t_author_id t;
       t_created_at := t_created_at t; t_last_activity := ts |}
  else t.

(** The commands a policy of [supabase_schema.sql] can be written for. *)
Inductive command : Type := Select | Insert | Update | Delete.

Definition command_eqb (c1 c2 : command) : bool :=
  match c1, c2 with
  | Select, Select | Insert, Insert | Update, Update | Delete, Delete => true
  | _, _ => false
  end.

(** Row level security is enabled on [forum_threads], and its policies are
    "Public threads are viewable by everyone" ([for select using (true)])
    and "Anyone can create threads" ([for insert with check (true)]). *)
Definition forum_threads_policies : list command := [Select; Insert].

(** With row level security enabled, a command no policy is written for
    sees no row. *)
Definition permitted (policies : list command) (c : command) : bool :=
  existsb (command_eqb c) policies.

(** [from('forum_threads').update({last_activity}).eq('id', id)]: the rows
    the policies let the command see are updated; an update that sees no
    row changes nothing and is not an error. *)
Definition update_last_activity (env : Env) (k : nat) (db : Db)
           (id : value) (ts : Z) : result unit * Db :=
  if fails env k then (Err (str "store request failed"), db)
  else if permitted forum_threads_policies Update then
    (Ok tt, {| forum_threads := map (touch (to_string id) ts) (forum_threads db);
               forum_posts := forum_posts db |})
  else (Ok tt, db).

(** [from('forum_threads').select('*').eq('id', id).single()]: an error
    unless exactly one row is selected. *)
Definition select_thread (env : Env) (k : nat) (db : Db)
           (id : jsstring) : result thread_row :=
  if fails env k then Err (str "store request failed")
  else
    match filter (fun t => t_id t = id) (forum_threads db) with
    | [t] => Ok t
    | _ => Err (str "JSON object requested, multiple (or no) rows returned")
    end.

Definition created_asc (p1 p2 : post_row) : Prop :=
  p_created_at p1 <= p_created_at p2.

Definition activity_desc (t1 t2 : thread_row) : Prop :=
  t_last_activity t2 <= t_last_activity t1.

#[global] Instance created_asc_dec : RelDecision created_asc.
Proof. intros p1 p2. unfold created_asc. apply _. Defined.

#[global] Instance activity_desc_dec : RelDecision activity_desc.
Proof. intros t1 t2. unfold activity_desc. apply _. Defined.

(** [from('forum_posts').select('*').eq('thread_id', id)
      .order('created_at', { ascending: true })] *)
Definition select_replies (env : Env) (k : nat) (db : Db)
           (id : jsstring) : result (list post_row) :=
  if fails env k then Err (str "store request failed")
  else
    Ok (merge_sort created_asc
          (filter (fun p => p_thread_id p = id) (forum_posts db))).

(** [from('forum_threads').select('*', { count: 'exact' })
      .order('last_activity', { ascending: false }).range(start, end)]:
    the client sends [start] as the offset and [end - start + 1] as the
    limit; the answer is the rows of the ordered table from the offset on,
    at most the limit, and the number of rows of the table.  The store
    refuses an offset or a limit that is not a non-negative integer of 64
    bits, and an offset beyond the number of rows. *)
Definition select_threads (env : Env) (k : nat) (db : Db)
           (start end_ : number) : result (list thread_row * Z) :=
  if fails env k then Err (str "store request failed")
  else
    match start, num_add (num_sub end_ start) (Finite 1) with
    | Finite offset, Finite limit =>
        let count := Z.of_nat (length (forum_threads db)) in
        if (offset <? 0) || (limit <? 0)
           || (2 ^ 63 <=? offset) || (2 ^ 63 <=? limit) then
          Err (str "requested range not satisfiable")
        else if count <? offset then
          Err (str "requested range not satisfiable")
        else
          let ordered := merge_sort activity_desc (forum_threads db) in
          Ok (take (Z.to_nat limit) (drop (Z.to_nat offset) ordered), count)
    | _, _ => Err (str "requested range not satisfiable")
    end.

End Store.

(** ** pages/api/forum.ts: the forum handler over the hosted store *)
Module ForumApi.
Import Js Http Regex Store.

Inductive json : Type :=
| Error (error : jsstring)
| ThreadWithReplies (thread : thread_row) (replies : list post_row)
| ThreadList (threads : list thread_row) (page totalPages : option Z)
| Post (data : post_row)
| Thread (thread : thread_row).

(** The GET branch. *)
Definition handle_get (env : Env) (db : Db) (q : Query) : outcome json :=
  let threadId := q_threadId q in
  let page := default (str "1") (q_page q) in
  let limit := default (str "10") (q_limit q) in
  let pageNum := parseInt page in
  let limitNum := parseInt limit in
  let start := num_mul (num_sub pageNum (Finite 1)) limitNum in
  let end_ := num_sub (num_add start limitNum) (Finite 1) in
  if param_truthy threadId then
    match select_thread env 0 db (default [] threadId) with
    | Err message => Respond 500 (Error message)
    | Ok thread =>
        match select_replies env 1 db (default [] threadId) with
        | Err message => Respond 500 (Error message)
        | Ok replies => Respond 200 (ThreadWithReplies thread replies)
        end
    end
  else
    match select_threads env 0 db start end_ with
    | Err message => Respond 500 (Error message)
    | Ok (threads, count) =>
        Respond 200
          (ThreadList threads (to_json pageNum)
             (if count =? 0 then Some 1 else to_json (ceil_div count limitNum)))
    end.

(** The POST branch; the store after the run is returned with the
    outcome. *)
Definition handle_post (env : Env) (db : Db) (b : Body)
  : outcome json * Db :=
  let title := b_title b in
  let content := b_content b in
  let authorId := b_authorId b in
  let threadId := b_threadId b in
  if negb (truthy authorId) || negb (truthy content) then
    (Respond 400 (Error (str "Missing required fields")), db)
  else if test emailPattern (to_string content) then
    (Respond 400 (Error (str "Content cannot contain email addresses")), db)
  else if truthy threadId then
    (* Create Reply *)
    match insert_post env 0 db threadId content authorId with
    | (Err message, db1) => (Respond 500 (Error message), db1)
    | (Ok data, db1) =>
        (* Update thread last_activity; the answer is not looked at *)
        let '(_, db2) := update_last_activity env 1 db1 threadId (now env) in
        (Respond 201 (Post data), db2)
    end
  else
    (* Create Thread *)
    if negb (truthy title) then
      (Respond 400 (Error (str "Title is required for new threads")), db)
    else
      match insert_thread env 0 db title authorId with
      | (Err message, db1) => (Respond 500 (Error message), db1)
      | (Ok thread, db1) =>
          (* Create initial post *)
          match insert_post env 1 db1 (VStr (t_id thread)) content authorId with
          | (Err message, db2) => (Respond 500 (Error message), db2)
          | (Ok _, db2) => (Respond 201 (Thread thread), db2)
          end
      end.

Definition handler (env : Env) (db : Db) (req : Request)
  : outcome json * Db :=
  if jsstring_eqb (method req) (str "GET") then
    (handle_get env db (query req), db)
  else if jsstring_eqb (method req) (str "POST") then
    handle_post env db (body req)
  else
    (Respond 405 (Error (str "Method not allowed")), db).

(** The four operations of the forum service as requests to [handler]. *)
Definition no_query : Query :=
  {| q_threadId := None; q_page := None; q_limit := None |}.

Definition no_body : Body :=
  {| b_title := VUndefined; b_content := VUndefined;
     b_authorId := VUndefined; b_threadId := VUndefined |}.

Definition listThreads (env : Env) (db : Db) (page limit : option jsstring)
  : outcome json :=
  fst (handler env db
         {| method := str "GET";
            query := {| q_threadId := None; q_page := page; q_limit := limit |};
            body := no_body |}).

Definition getThread (env : Env) (db : Db) (threadId : jsstring)
  : outcome json :=
  fst (handler env db
         {| method := str "GET";
            query := {| q_threadId := Some threadId; q_page := None;
                        q_limit := None |};
            body := no_body |}).

Definition createThread (env : Env) (db : Db) (title content authorId : value)
  : outcome json * Db :=
  handler env db
    {| method := str "POST"; query := no_query;
       body := {| b_title := title; b_content := content;
                  b_authorId := authorId; b_threadId := VUndefined |} |}.

Definition createReply (env : Env) (db : Db) (threadId content authorId : value)
  : outcome json * Db :=
  handler env db
    {| method := str "POST"; query := no_query;
       body := {| b_title := VUndefined; b_content := content;
                  b_authorId := authorId; b_threadId := threadId |} |}.

End ForumApi.

(** ** src/contexts/CommunityContext.tsx: the anonymous identifier *)
Module CommunityContext.
Import Js Http.

(** [s.substring(start, end)]: both indices are clamped to the length and
    swapped when out of order. *)
Definition substring (s : jsstring) (start end_ : nat) : jsstring :=
  let lo := Nat.min start end_ in
  let hi := Nat.max start end_ in
  take (hi - lo) (drop lo s).

Definition digit36 (d : N) : N :=
  (if d <? 10 then 48 + d else 97 + (d - 10))%N.

Fixpoint to_radix36 (fuel : nat) (n : N) (acc : jsstring) : jsstring :=
  match fuel with
  | O => acc
  | S fuel' =>
      let acc' := digit36 (n mod 36)%N :: acc in
      if (n / 36 =? 0)%N then acc' else to_radix36 fuel' (n / 36)%N acc'
  end.

(** [n.toString(36)] for a non-negative integer. *)
Definition toString36 (n : N) : jsstring :=
  to_radix36 (S (N.to_nat (N.log2 n))) n [].

(** [generateAnonymousId()].  Its two readings of the outside are
    arguments: [random36] is [Math.random().toString(36)], the rendering in
    base 36 of a number of the interval from 0 (included) to 1, that is
    ["0"] or ["0."] followed by the digits of the fraction, and [now] is
    [Date.now()]. *)
Definition generateAnonymousId (random36 : jsstring) (now : N) : jsstring :=
  let prefix := str "anon" in
  let randomPart := substring random36 2 10 in
  let timestamp := toString36 now in
  prefix ++ str "_" ++ randomPart ++ str "_" ++ timestamp.

(** What [toString(36)] writes for a number from 0 (included) to 1 whose
    fraction it renders with the base-36 digits [ds]: ["0"] when there is
    none, else ["0."] and one character per digit. *)
Definition fraction36 (ds : list N) : jsstring :=
  match ds with
  | [] => str "0"
  | _ :: _ => str "0." ++ map digit36 ds
  end.

(** The characters [0-9] and [a-z]. *)
Definition alphanumeric (c : N) : bool :=
  ((48 <=? c) && (c <=? 57) || (97 <=? c) && (c <=? 122))%N.

End CommunityContext.

(** ** pages/community/new.tsx and pages/community/thread/[id].tsx:
       the checks of the two forms before a request is sent *)
Module Pages.
Import Js Http Regex Store.

(** [handleSubmit] of the new-thread form up to the request: [Some m] is
    [setError(m); return], [None] lets the request go out. *)
Definition checkNewThread (title content : jsstring) : option jsstring :=
  if jsstring_eqb (trim title) [] || (length (trim title) <? 3)%nat then
    Some (str "Title must be at least 3 characters long")
  else if jsstring_eqb (trim content) [] || (length (trim content) <? 10)%nat then
    Some (str "Content must be at least 10 characters long")
  else if test emailPattern title || test emailPattern content then
    Some (str "Posts cannot contain email addresses")
  else if test phonePattern title || test phonePattern content then
    Some (str "Posts cannot contain phone numbers")
  else None.

(** [handleReply] of the thread page up to the request. *)
Definition checkReply (replyContent : jsstring) : option jsstring :=
  if jsstring_eqb (trim replyContent) []
     || (length (trim replyContent) <? 10)%nat then
    Some (str "Reply must be at least 10 characters long")
  else if test emailPattern replyContent || test phonePattern replyContent then
    Some (str "Replies cannot contain email addresses or phone numbers")
  else None.


End Pages.

(** ** The pseudonym as the specification words it *)
Module PseudonymSpec.
Import Js Pseudonym.

(** [h = 0], then [h = (h * 31 + charCode) mod 2^32] over the characters. *)
Fixpoint spec_hash (h : Z) (s : jsstring) : Z :=
  match s with
  | [] => h
  | c :: s' => spec_hash ((h * 31 + Z.of_N c) mod 2 ^ 32) s'
  end.

(** The adjective at index [h mod 10], the noun at index [(h >> 8) mod 10]
    (both tables have ten entries), a hyphen and [(h mod 900) + 100] in
    decimal; the input is replaced by ["anon"] when empty or undefined. *)
Definition spec_pseudonym (anonymousId : option jsstring) : jsstring :=
  let s := match anonymousId with
           | Some (c :: s) => c :: s
           | _ => str "anon"
           end in
  let h := spec_hash 0 s in
  nth (Z.to_nat (h mod 10)) ADJECTIVES []
  ++ nth (Z.to_nat (Z.shiftr h 8 mod 10)) NOUNS []
  ++ str "-" ++ decimal (h mod 900 + 100).

End PseudonymSpec.

(** ** What a match is

    The relation that the matcher of [Regex] decides. *)
Module RegexSemantics.
Import Js Regex.

(** [Matches r prev s prev' s'] when [r] matches the input [s], preceded by
    the code unit [prev], up to the rest [s'], which is preceded by
    [prev']. *)
Inductive Matches : regex -> option N -> jsstring -> option N -> jsstring -> Prop :=
| MClass p prev c s :
    p c = true -> Matches (Class p) prev (c :: s) (Some c) s
| MSeq r1 r2 prev s prev1 s1 prev2 s2 :
    Matches r1 prev s prev1 s1 -> Matches r2 prev1 s1 prev2 s2 ->
    Matches (Seq r1 r2) prev s prev2 s2
| MOptSome r prev s prev' s' :
    Matches r prev s prev' s' -> Matches (Opt r) prev s prev' s'
| MOptNone r prev s : Matches (Opt r) prev s prev s
| MStarNil r prev s : Matches (Star r) prev s prev s
| MStarCons r prev s prev1 s1 prev2 s2 :
    Matches r prev s prev1 s1 -> Matches (Star r) prev1 s1 prev2 s2 ->
    Matches (Star r) prev s prev2 s2
| MWordBoundary prev s :
    at_boundary prev s = true -> Matches WordBoundary prev s prev s.

(** The code unit before the input that follows the prefix [pre]. *)
Definition before (prev : option N) (pre : jsstring) : option N :=
  match last pre with
  | Some c => Some c
  | None => prev
  end.

(** Some substring of [s] matches [r]. *)
Definition Found (r : regex) (prev : option N) (s : jsstring) : Prop :=
  exists pre post prev' s',
    s = pre ++ post /\ Matches r (before prev pre) post prev' s'.

End RegexSemantics.

(** ** Concrete runs used below *)
Module Scenario.
Import Js Http Store.

(** A run in which the store answers every request. *)
Definition env_ok : Env :=
  {| now := 1000;
     fails := fun _ => false;
     uuid := fun k => str "id-" ++ decimal (Z.of_nat k);
     db_now := fun k => 1000 + Z.of_nat k |}.

(** A run in which the second request to the store is answered with an
    error. *)
Definition env_second_fails : Env :=
  {| now := 1000;
     fails := fun k => Nat.eqb k 1;
     uuid := fun k => str "id-" ++ decimal (Z.of_nat k);
     db_now := fun k => 1000 + Z.of_nat k |}.

Definition db_empty : Db := {| forum_threads := []; forum_posts := [] |}.

Definition thread_T : thread_row :=
  {| t_id := str "T"; t_title := str "First thread";
     t_author_id := str "anon_a"; t_created_at := 100; t_last_activity := 100 |}.

Definition thread_U : thread_row :=
  {| t_id := str "U"; t_title := str "Second thread";
     t_author_id := str "anon_b"; t_created_at := 200; t_last_activity := 200 |}.

Definition post_T : post_row :=
  {| p_id := str "p1"; p_thread_id := str "T"; p_content := str "The first post";
     p_author_id := str "anon_a"; p_created_at := 100 |}.

Definition post_U : post_row :=
  {| p_id := str "p2"; p_thread_id := str "U"; p_content := str "The second post";
     p_author_id := str "anon_b"; p_created_at := 200 |}.

Definition db_two : Db :=
  {| forum_threads := [thread_T; thread_U]; forum_posts := [post_T; post_U] |}.

(** The rows that creating the thread "Hello" adds to the empty store. *)
Definition thread_hello : thread_row :=
  {| t_id := str "id-0"; t_title := str "Hello"; t_author_id := str "anon_x";
     t_created_at := 1000; t_last_activity := 1000 |}.

Definition post_hello : post_row :=
  {| p_id := str "id-1"; p_thread_id := str "id-0";
     p_content := str "This is a test post";
     p_author_id := str "anon_x"; p_created_at := 1001 |}.

Definition db_thread_only : Db :=
  {| forum_threads := [thread_hello]; forum_posts := [] |}.

Definition db_hello : Db :=
  {| forum_threads := [thread_hello]; forum_posts := [post_hello] |}.

Definition post_request (title content authorId threadId : value) : Request :=
  {| method := str "POST";
     query := {| q_threadId := None; q_page := None; q_limit := None |};
     body := {| b_title := title; b_content := content;
                b_authorId := authorId; b_threadId := threadId |} |}.

End Scenario.

(** ** The hash as a polynomial *)
Module PseudonymAlgebra.
Import Js.

(** The value of the code units as digits in base 31, without any
    wrap-around. *)
Definition poly31 (s : jsstring) : Z :=
  fold_left (fun acc c => acc * 31 + Z.of_N c) s 0.

End PseudonymAlgebra.

(** ** src/components/ForumThreadCard.tsx and ForumPost.tsx *)
Module Cards.
Import Js.

(** The ending of a unit: [n === 1 ? '' : 's']. *)
Definition plural (n : Z) : jsstring := if n =? 1 then [] else str "s".

(** [formatRelativeTime(iso)].  [date] is the time value of
    [new Date(iso)] in milliseconds ([None] for an invalid date, whose time
    value is [NaN]), [now] the reading of the clock, and [localeText] what
    the locale-dependent rendering of the date returns
    ([toLocaleDateString()] in the card, [toLocaleString()] in the post). *)
Definition formatRelativeTime (date : option Z) (now : Z)
           (localeText : jsstring) : jsstring :=
  match date with
  | None => localeText
  | Some date =>
      let diffMs := now - date in
      let diffSec := diffMs / 1000 in
      let diffMin := diffSec / 60 in
      let diffHr := diffMin / 60 in
      let diffDay := diffHr / 24 in
      if diffSec <? 60 then str "Just now"
      else if diffMin <? 60 then
        decimal diffMin ++ str " min" ++ plural diffMin ++ str " ago"
      else if diffHr <? 24 then
        decimal diffHr ++ str " hour" ++ plural diffHr ++ str " ago"
      else if diffDay <? 7 then
        decimal diffDay ++ str " day" ++ plural diffDay ++ str " ago"
      else localeText
  end.

End Cards.

(** ** The stored identifiers of the two contexts *)
Module Session.
Import Js CommunityContext.

(** The initial state of [CommunityProvider]: the identifier and the
    session storage afterwards.  [window] tells whether the code runs in a
    browser, [storage] is the entry ['safeharbor_anonymous_id'] of the
    session storage ([None] when [getItem] returns [null]). *)
Definition initialAnonymousId (window : bool) (storage : option jsstring)
           (random36 : jsstring) (now : N) : jsstring * option jsstring :=
  if window then
    match storage with
    | Some (c :: stored) => (c :: stored, storage)
    | _ =>
        let newId := generateAnonymousId random36 now in
        (newId, Some newId)
    end
  else (generateAnonymousId random36 now, storage).

(** [generateNewAnonymousId()] *)
Definition generateNewAnonymousId (window : bool) (storage : option jsstring)
           (random36 : jsstring) (now : N) : jsstring * option jsstring :=
  let newId := generateAnonymousId random36 now in
  (newId, if window then Some newId else storage).

(** The effect of [UserProvider]: the user id and the local storage
    afterwards; [randomUUID] is what [crypto.randomUUID()] returns. *)
Definition storedUserId (storage : option jsstring) (randomUUID : jsstring)
  : jsstring * option jsstring :=
  match storage with
  | Some (c :: stored) => (c :: stored, storage)
  | _ => (randomUUID, Some randomUUID)
  end.

End Session.

(** ** pages/api/sos-trigger.ts *)
Module Sos.
Import Js Http.

(** A coordinate of the body: a finite number, or anything else (an
    infinite number, which only an overflowing literal yields, is turned
    down like a value that is not a number). *)
Inductive coord : Type :=
| Number (q : Q)
| NotNumber.

(** The [location] of the body: falsy ([null], absent), a truthy value
    without fields, or an object with its [latitude] and [longitude]
    (a missing field is [NotNumber]). *)
Inductive location : Type :=
| NoLocation
| NotAnObject
| Coordinates (latitude longitude : coord).

Record SOSRequest : Type := {
  timestamp : value;
  loc : location;
  userAgent : value
}.

Inductive json : Type :=
| Error (error : jsstring)
| Success (message : jsstring) (timestamp : Z).

Definition is_number (c : coord) : bool :=
  match c with
  | Number _ => true
  | NotNumber => false
  end.

(** [c < bound] and [c > bound]; false when [c] is not a number. *)
Definition below (c : coord) (bound : Q) : bool :=
  match c with
  | Number q => negb (Qle_bool bound q)
  | NotNumber => false
  end.

Definition above (c : coord) (bound : Q) : bool :=
  match c with
  | Number q => negb (Qle_bool q bound)
  | NotNumber => false
  end.

(** The condition of the guard on the location. *)
Definition invalid_location (l : location) : bool :=
  match l with
  | NoLocation => false
  | NotAnObject => true
  | Coordinates latitude longitude =>
      negb (is_number latitude)
      || negb (is_number longitude)
      || below latitude (- (90 # 1))
      || above latitude (90 # 1)
      || below longitude (- (180 # 1))
      || above longitude (180 # 1)
  end.

(** [userAgent?.substring(0, 50)] throws unless [userAgent] is a string,
    [null] or [undefined]. *)
Definition log_throws (userAgent : value) : bool :=
  match userAgent with
  | VStr _ | VUndefined | VNull => false
  | VBool _ | VNum _ => true
  end.

(** [handler(req, res)], with [now] the reading of the clock. *)
Definition handler (now : Z) (method : jsstring) (body : SOSRequest)
  : Z * json :=
  if negb (jsstring_eqb method (str "POST")) then
    (405, Error (str "Method not allowed"))
  else if negb (truthy (timestamp body)) then
    (400, Error (str "Missing timestamp"))
  else if invalid_location (loc body) then
    (400, Error (str "Invalid location data"))
  else if log_throws (userAgent body) then
    (500, Error (str "Failed to process SOS alert. Please contact emergency services directly."))
  else
    (200, Success (str "SOS alert has been sent to your emergency contacts.") now).

End Sos.

(** ** pages/api/chat.ts: the chat proxy *)
Module Chat.
Import Js Http Regex.

(** One character of a pattern with the [i] flag: an ASCII letter stands
    for both of its cases. *)
Definition letter_i (a : ascii) (c : N) : bool :=
  let n := N_of_ascii a in
  ((c =? n)
   || ((97 <=? n) && (n <=? 122) && (c =? n - 32))
   || ((65 <=? n) && (n <=? 90) && (c =? n + 32)))%N.

(** A literal of a pattern with the [i] flag. *)
Definition lit_i (s : string) : regex :=
  seq (map (fun a => Class (letter_i a)) (list_ascii_of_string s)).

(** The letters of [s], each in either case. *)
Definition same_letters (w : jsstring) (s : string) : Prop :=
  Forall2 (fun c a => letter_i a c = true) w (list_ascii_of_string s).

Definition sep : regex := Opt (Class (one_of "_-")).        (* [_-]? *)

(** [/api[_-]?key/i], [/system[_-]?prompt/i] and
    [/show[_-]?me[_-]?your[_-]?instructions/i] *)
Definition suspiciousPatterns : list regex :=
  [ seq [lit_i "api"; sep; lit_i "key"];
    seq [lit_i "system"; sep; lit_i "prompt"];
    seq [lit_i "show"; sep; lit_i "me"; sep; lit_i "your"; sep;
         lit_i "instructions"] ].

(** What the guards in front of the model answer: [Some] of the status and
    the message of the error, or [None] when the message goes on. *)
Definition guard (message : value) : option (Z * jsstring) :=
  match message with
  | VStr m =>
      if jsstring_eqb m [] || (length (trim m) =? 0)%nat then
        Some (400, str "Invalid message")
      else if (2000 <? length m)%nat then
        Some (400, str "Message too long")
      else if existsb (fun pattern => test pattern m) suspiciousPatterns then
        Some (400, str "Your message contains content that cannot be processed.")
      else None
  | _ => Some (400, str "Invalid message")
  end.

(** What the call of the model ends with: the text of the answer, or an
    error with its [message], [status] and [code] (each possibly absent)
    and with what its [toString()] returns. *)
Inductive completion : Type :=
| Answer (text : jsstring)
| Failure (message : option jsstring) (status : option Z)
          (code : option jsstring) (rendering : jsstring).

Inductive json : Type :=
| Error (error : jsstring)
| Reply (response : jsstring) (timestamp : Z).

Definition mock_response : jsstring :=
  str "I'm currently operating in offline mode due to high traffic. (Mock Response: I hear you, and I'm here to support you. Please tell me more about what you're going through.)".

(** [s.includes(sub)] *)
Fixpoint includes (s sub : jsstring) : bool :=
  startsWith s sub ||
  match s with
  | [] => false
  | _ :: s' => includes s' sub
  end.

(** The handler over the OpenAI client ([pages/api/chat.ts], first
    version).  [model] is what the request to the model would end with. *)
Definition handler_openai (now : Z) (method : jsstring) (message : value)
           (model : completion) : Z * json :=
  if negb (jsstring_eqb method (str "POST")) then
    (405, Error (str "Method not allowed"))
  else
    match guard message with
    | Some (status, error) => (status, Error error)
    | None =>
        match model with
        | Answer text => (200, Reply text now)
        | Failure _ status code _ =>
            if bool_decide (status = Some 429)
               || bool_decide (code = Some (str "insufficient_quota")) then
              (200, Reply mock_response now)
            else
              (500, Error (str "Unable to process your request. Please try again later."))
        end
    end.

(** The handler over the Gemini client; [apiKey] tells whether a key is
    configured. *)
Definition handler_gemini (now : Z) (apiKey : bool) (method : jsstring)
           (message : value) (model : completion) : Z * json :=
  if negb (jsstring_eqb method (str "POST")) then
    (405, Error (str "Method not allowed"))
  else
    match guard message with
    | Some (status, error) => (status, Error error)
    | None =>
        if negb apiKey then
          (500, Error (str "Server configuration error: Missing API Key"))
        else
          match model with
          | Answer text => (200, Reply text now)
          | Failure message status _ rendering =>
              if match message with
                 | Some m => includes m (str "429")
                 | None => false
                 end
                 || bool_decide (status = Some 429) then
                (200, Reply mock_response now)
              else
                (500, Error (str "Unable to process your request: "
                             ++ or_else message rendering))
          end
    end.

End Chat.

(** ** The constraints of the schema as an invariant of the store *)
Module StoreInvariant.
Import Js Store.

(** Primary keys are unique and every post belongs to a stored thread. *)
Definition consistent (db : Db) : Prop :=
  NoDup (map t_id (forum_threads db))
  /\ NoDup (map p_id (forum_posts db))
  /\ Forall (fun p => has_thread db (p_thread_id p) = true) (forum_posts db).

(** The replies of a thread as the store holds them. *)
Definition posts_of (db : Db) (id : jsstring) : list post_row :=
  filter (fun p => p_thread_id p = id) (forum_posts db).



End StoreInvariant.

(** ** The request of the reply form *)
Module ReplyForm.
Import Js Http.


End ReplyForm.

(** ** pages/api/journal.ts: journal entries and safety plans *)
Module Journal.
Import Js Http.

(** The tables [journal_entries] and [safety_plans] of the schema. *)
Record entry_row : Type := {
  e_id : jsstring;
  e_user_id : jsstring;
  e_ciphertext : jsstring;
  e_iv : jsstring;
  e_created_at : Z
}.

Record plan_row : Type := {
  s_user_id : jsstring;
  s_ciphertext : jsstring;
  s_iv : jsstring;
  s_updated_at : Z
}.

Record Db : Type := {
  journal_entries : list entry_row;
  safety_plans : list plan_row
}.

(** What a run gets from outside: the clock of the handler, and for the
    k-th request to the store whether it fails, the uuid and the time the
    store would generate; [is_uuid] tells which texts the store reads as a
    uuid (the type of the [user_id] columns). *)
Record Env : Type := {
  now : Z;
  fails : nat -> bool;
  uuid : nat -> jsstring;
  db_now : nat -> Z;
  is_uuid : jsstring -> bool
}.

Record error : Type := { code : jsstring; message : jsstring }.

Inductive result (A : Type) : Type :=
| Ok (data : A)
| Err (e : error).
Arguments Ok {A} data.
Arguments Err {A} e.

Definition unavailable : error :=
  {| code := str "XX000"; message := str "store request failed" |}.
Definition invalid_uuid : error :=
  {| code := str "22P02"; message := str "invalid input syntax for type uuid" |}.
Definition null_violation : error :=
  {| code := str "23502"; message := str "null value violates not-null constraint" |}.
Definition duplicate_key : error :=
  {| code := str "23505"; message := str "duplicate key value violates unique constraint" |}.
Definition no_single_row : error :=
  {| code := str "PGRST116";
     message := str "JSON object requested, multiple (or no) rows returned" |}.

(** [from('journal_entries').insert([{user_id, ciphertext, iv}])
      .select().single()] *)
Definition insert_entry (env : Env) (k : nat) (db : Db)
           (user_id : jsstring) (ciphertext : value) (iv : jsstring)
  : result entry_row * Db :=
  if fails env k then (Err unavailable, db)
  else if negb (is_uuid env user_id) then (Err invalid_uuid, db)
  else if negb (Store.not_null ciphertext) then (Err null_violation, db)
  else if existsb (fun e => jsstring_eqb (e_id e) (uuid env k)) (journal_entries db)
  then (Err duplicate_key, db)
  else
    let row := {| e_id := uuid env k; e_user_id := user_id;
                  e_ciphertext := to_string ciphertext; e_iv := iv;
                  e_created_at := db_now env k |} in
    (Ok row, {| journal_entries := journal_entries db ++ [row];
                safety_plans := safety_plans db |}).

(** [from('safety_plans').select('*').eq('user_id', userId).single()] *)
Definition select_plan (env : Env) (k : nat) (db : Db) (user_id : jsstring)
  : result plan_row :=
  if fails env k then Err unavailable
  else if negb (is_uuid env user_id) then Err invalid_uuid
  else
    match filter (fun r => s_user_id r = user_id) (safety_plans db) with
    | [r] => Ok r
    | _ => Err no_single_row
    end.

Definition newest_first (e1 e2 : entry_row) : Prop :=
  e_created_at e2 <= e_created_at e1.

#[global] Instance newest_first_dec : RelDecision newest_first.
Proof. intros e1 e2. unfold newest_first. apply _. Defined.

(** [from('journal_entries').select('*').eq('user_id', userId)
      .order('created_at', { ascending: false })] *)
Definition select_entries (env : Env) (k : nat) (db : Db) (user_id : jsstring)
  : result (list entry_row) :=
  if fails env k then Err unavailable
  else if negb (is_uuid env user_id) then Err invalid_uuid
  else
    Ok (merge_sort newest_first
          (filter (fun e => e_user_id e = user_id) (journal_entries db))).

(** [from('safety_plans').upsert([{user_id, ciphertext, iv, updated_at}])
      .select().single()]: the row of the user is replaced, or added when
    there is none.  [ciphertext] is [None] when the field is [undefined]
    and so left out of the request. *)
Definition upsert_plan (env : Env) (k : nat) (db : Db) (user_id : jsstring)
           (ciphertext : option jsstring) (iv : jsstring) (updated_at : Z)
  : result plan_row * Db :=
  if fails env k then (Err unavailable, db)
  else if negb (is_uuid env user_id) then (Err invalid_uuid, db)
  else
    match ciphertext with
    | None => (Err null_violation, db)
    | Some text =>
        let row := {| s_user_id := user_id; s_ciphertext := text;
                      s_iv := iv; s_updated_at := updated_at |} in
        (Ok row,
         {| journal_entries := journal_entries db;
            safety_plans :=
              filter (fun r => s_user_id r <> user_id) (safety_plans db) ++ [row] |})
    end.

(** The body of a request: its [type], its [content], and its [plan] as
    [JSON.stringify] renders it ([None] when the field is absent). *)
Record Payload : Type := {
  p_type : value;
  p_content : value;
  p_plan : option jsstring
}.

Record JournalRequest : Type := {
  j_method : jsstring;
  j_user_header : option jsstring;      (* the header [x-user-id] *)
  j_type : option jsstring;             (* the query parameter [type] *)
  j_body : option Payload                (* [None]: a falsy body *)
}.

Inductive json : Type :=
| Error (error : jsstring)
| Stored (id : jsstring) (createdAt : Z)
| SafetyPlan (plan : option jsstring)
| Entries (entries : list entry_row)
| PlanStored (updatedAt : Z).

Definition default_user : jsstring :=
  str "00000000-0000-0000-0000-000000000000".

Definition has_type (body : option Payload) (t : string) : bool :=
  match body with
  | Some b => match p_type b with
              | VStr s => jsstring_eqb s (str t)
              | _ => false
              end
  | None => false
  end.

(** [handler(req, res)]: the status, the body of the response and the
    store afterwards. *)
Definition handler (env : Env) (db : Db) (req : JournalRequest)
  : Z * json * Db :=
  let userId := or_else (j_user_header req) default_user in
  if jsstring_eqb (j_method req) (str "POST") then
    if negb (has_type (j_body req) "journal") then
      (400, Error (str "Invalid payload type for POST"), db)
    else
      let content := match j_body req with
                     | Some b => p_content b
                     | None => VUndefined
                     end in
      if negb (truthy content) then
        (400, Error (str "Journal content is required"), db)
      else
        match insert_entry env 0 db userId content (str "mock_iv") with
        | (Err e, db1) => (500, Error (message e), db1)
        | (Ok data, db1) => (201, Stored (e_id data) (e_created_at data), db1)
        end
  else if jsstring_eqb (j_method req) (str "GET") then
    if bool_decide (j_type req = Some (str "safety-plan")) then
      match select_plan env 0 db userId with
      | Err e =>
          if negb (jsstring_eqb (code e) (str "PGRST116")) then
            (500, Error (message e), db)
          else (200, SafetyPlan None, db)
      | Ok data => (200, SafetyPlan (Some (s_ciphertext data)), db)
      end
    else
      match select_entries env 0 db userId with
      | Err e => (500, Error (message e), db)
      | Ok data => (200, Entries data, db)
      end
  else if jsstring_eqb (j_method req) (str "PUT") then
    if negb (has_type (j_body req) "safety-plan") then
      (400, Error (str "Invalid payload type for PUT"), db)
    else
      let plan := match j_body req with
                  | Some b => p_plan b
                  | None => None
                  end in
      match upsert_plan env 0 db userId plan (str "mock_iv") (now env) with
      | (Err e, db1) => (500, Error (message e), db1)
      | (Ok data, db1) => (200, PlanStored (s_updated_at data), db1)
      end
  else (405, Error (str "Method not allowed"), db).

(** The requests of the self-care page and of a reader. *)
Definition put_plan (user : option jsstring) (plan : option jsstring)
  : JournalRequest :=
  {| j_method := str "PUT"; j_user_header := user; j_type := None;
     j_body := Some {| p_type := VStr (str "safety-plan");
                       p_content := VUndefined; p_plan := plan |} |}.

Definition get_plan (user : option jsstring) : JournalRequest :=
  {| j_method := str "GET"; j_user_header := user;
     j_type := Some (str "safety-plan"); j_body := None |}.

Definition post_entry (user : option jsstring) (content : value)
  : JournalRequest :=
  {| j_method := str "POST"; j_user_header := user; j_type := None;
     j_body := Some {| p_type := VStr (str "journal");
                       p_content := content; p_plan := None |} |}.

Definition get_entries (user : option jsstring) : JournalRequest :=
  {| j_method := str "GET"; j_user_header := user; j_type := None;
     j_body := None |}.

(** A run in which the store answers and reads every text as a uuid. *)
Definition env_ok : Env :=
  {| now := 2000; fails := fun _ => false;
     uuid := fun k => str "e-" ++ decimal (Z.of_nat k);
     db_now := fun k => 2000 + Z.of_nat k;
     is_uuid := fun _ => true |}.

Definition db_empty : Db := {| journal_entries := []; safety_plans := [] |}.

End Journal.

(** * Properties *)

(** ** The matcher *)
Module RegexFacts.
Import Js Regex RegexSemantics.

(** A match never lengthens the input. *)
Lemma Matches_length r prev s prev' s' :
  Matches r prev s prev' s' -> (length s' <= length s)%nat.
Proof. induction 1; simpl in *; lia. Qed.

(** A match that consumes nothing leaves the position as it was. *)
Lemma Matches_same_length r prev s prev' s' :
  Matches r prev s prev' s' -> length s' = length s -> prev' = prev /\ s' = s.
Proof.
  induction 1 as [p prev c s Hp
                 |r1 r2 prev s prev1 s1 prev2 s2 H1 IH1 H2 IH2
                 |r prev s prev' s' H IH
                 |r prev s
                 |r prev s
                 |r prev s prev1 s1 prev2 s2 H1 IH1 H2 IH2
                 |prev s Hb]; intros Hlen; auto.
  - simpl in Hlen. lia.
  - pose proof (Matches_length _ _ _ _ _ H1).
    pose proof (Matches_length _ _ _ _ _ H2).
    destruct IH1 as [-> ->]; [lia|]. apply IH2. exact Hlen.
  - pose proof (Matches_length _ _ _ _ _ H1).
    pose proof (Matches_length _ _ _ _ _ H2).
    destruct IH1 as [-> ->]; [lia|]. apply IH2. exact Hlen.
Qed.

(** The matcher with continuation [k] succeeds exactly when [r] matches up
    to a position that [k] accepts. *)
Lemma matches_spec (r : regex) :
  forall prev s k,
    matches r prev s k = true
    <-> exists prev' s', Matches r prev s prev' s' /\ k prev' s' = true.
Proof.
  induction r as [p|r1 IH1 r2 IH2|r IH|r IH|]; intros prev s k.
  - simpl. destruct s as [|c s].
    + split; [discriminate|]. intros (p' & s' & H & _). inversion H.
    + rewrite andb_true_iff. split.
      * intros [Hp Hk]. exists (Some c), s. split; [constructor; exact Hp|exact Hk].
      * intros (p' & s' & H & Hk). inversion H; subst. auto.
  - simpl. rewrite IH1. split.
    + intros (p1 & s1 & H1 & H2). apply IH2 in H2 as (p2 & s2 & H2 & Hk).
      exists p2, s2. split; [econstructor; eassumption|exact Hk].
    + intros (p2 & s2 & H & Hk). inversion H; subst.
      eexists _, _. split; [eassumption|]. apply IH2. eauto.
  - simpl. rewrite orb_true_iff, IH. split.
    + intros [(p' & s' & H & Hk)|Hk].
      * exists p', s'. split; [apply MOptSome; exact H|exact Hk].
      * exists prev, s. split; [apply MOptNone|exact Hk].
    + intros (p' & s' & H & Hk). inversion H; subst; [left; eauto|right; exact Hk].
  - cbn [matches].
    set (loop := fix loop (fuel : nat) (prev : option N) (s : jsstring) : bool :=
                   k prev s ||
                   match fuel with
                   | O => false
                   | S fuel' =>
                       matches r prev s
                         (fun prev' s' =>
                            (length s' <? length s)%nat && loop fuel' prev' s')
                   end).
    assert (Hunfold : forall fuel prev s,
               loop fuel prev s
               = k prev s ||
                 match fuel with
                 | O => false
                 | S fuel' =>
                     matches r prev s
                       (fun prev' s' =>
                          (length s' <? length s)%nat && loop fuel' prev' s')
                 end)
      by (intros [|fuel] ? ?; reflexivity).
    split.
    + generalize (length s) as fuel. intros fuel. revert prev s.
      induction fuel as [|fuel IHf]; intros prev s; rewrite Hunfold, orb_true_iff.
      * intros [Hk|Hk]; [|discriminate].
        exists prev, s. split; [apply MStarNil|exact Hk].
      * intros [Hk|Hm]; [exists prev, s; split; [apply MStarNil|exact Hk]|].
        apply IH in Hm as (p1 & s1 & H1 & Hk).
        apply andb_true_iff in Hk as [_ Hl].
        apply IHf in Hl as (p2 & s2 & H2 & Hk).
        exists p2, s2. split; [eapply MStarCons; eassumption|exact Hk].
    + intros (p' & s' & H & Hk).
      assert (Hgen : forall fuel, (length s <= fuel)%nat -> loop fuel prev s = true);
        [|apply Hgen; lia].
      remember (Star r) as R eqn:ER. revert ER Hk.
      induction H as [| | | |r0 prev s
                     |r0 prev s prev1 s1 prev2 s2 H1 _ H2 IH2|];
        intros ER Hk fuel Hfuel; try discriminate; injection ER as ->.
      * rewrite Hunfold, Hk. reflexivity.
      * pose proof (Matches_length _ _ _ _ _ H1) as Hle.
        destruct (Nat.eq_dec (length s1) (length s)) as [Heq|Hne].
        { destruct (Matches_same_length _ _ _ _ _ H1 Heq) as [-> ->].
          apply IH2; auto. }
        destruct fuel as [|fuel]; [lia|].
        rewrite Hunfold, orb_true_iff. right.
        apply IH. exists prev1, s1. split; [exact H1|].
        apply andb_true_iff. split; [apply Nat.ltb_lt; lia|].
        apply IH2; auto. lia.
  - simpl. rewrite andb_true_iff. split.
    + intros [Hb Hk]. exists prev, s. split; [constructor; exact Hb|exact Hk].
    + intros (p' & s' & H & Hk). inversion H; subst. auto.
Qed.

Lemma match_here_spec (r : regex) (prev : option N) (s : jsstring) :
  match_here r prev s = true <-> exists prev' s', Matches r prev s prev' s'.
Proof.
  unfold match_here. rewrite matches_spec. split.
  - intros (p' & s' & H & _). eauto.
  - intros (p' & s' & H). eauto.
Qed.

Lemma before_cons (prev : option N) (c : N) (pre : jsstring) :
  before prev (c :: pre) = before (Some c) pre.
Proof. unfold before. rewrite last_cons. destruct (last pre); reflexivity. Qed.

(** The search succeeds exactly when some substring matches. *)
Lemma search_spec (r : regex) (s : jsstring) :
  forall prev, search r prev s = true <-> Found r prev s.
Proof.
  unfold Found.
  induction s as [|c s IH]; intros prev; simpl; rewrite orb_true_iff, match_here_spec.
  - split.
    + intros [(p' & s' & H)|Hf]; [|discriminate].
      exists [], [], p', s'. split; [reflexivity|exact H].
    + intros (pre & post & p' & s' & Heq & H). left.
      symmetry in Heq. apply app_eq_nil in Heq as [-> ->]. eauto.
  - rewrite IH. split.
    + intros [(p' & s' & H)|(pre & post & p' & s' & -> & H)].
      * exists [], (c :: s), p', s'. split; [reflexivity|exact H].
      * exists (c :: pre), post, p', s'. split; [reflexivity|].
        rewrite before_cons. exact H.
    + intros (pre & post & p' & s' & Heq & H).
      destruct pre as [|d pre].
      * left. simpl in Heq. subst post. eauto.
      * right. simpl in Heq. injection Heq as -> ->.
        rewrite before_cons in H. eauto 6.
Qed.

(** [re.test(s)] is true exactly when some substring of [s] matches. *)
Lemma test_spec (r : regex) (s : jsstring) :
  test r s = true <-> Found r None s.
Proof. apply search_spec. Qed.

(** The addresses and numbers that the specification lists. *)
Example email_found : test emailPattern (str "test@example.com") = true.
Proof. vm_compute. reflexivity. Qed.

Example phone_dashes_found : test phonePattern (str "555-123-4567") = true.
Proof. vm_compute. reflexivity. Qed.

Example phone_digits_found : test phonePattern (str "5551234567") = true.
Proof. vm_compute. reflexivity. Qed.

(** The word boundaries of the pattern: ten digits inside a longer run of
    word characters are not a match. *)
Example phone_inside_word : test phonePattern (str "id15551234567") = false.
Proof. vm_compute. reflexivity. Qed.

Example plain_text_clean :
  test emailPattern (str "This is a test post") = false
  /\ test phonePattern (str "This is a test post") = false.
Proof. split; vm_compute; reflexivity. Qed.

End RegexFacts.

(** ** The pseudonym generator *)
Module PseudonymFacts.
Import Js Pseudonym PseudonymSpec.

Lemma hash_step_range (h : Z) (c : N) : 0 <= hash_step h c < 2 ^ 32.
Proof. unfold hash_step, to_uint32. apply Z.mod_pos_bound. lia. Qed.

Lemma fold_hash_range (s : jsstring) (h : Z) :
  0 <= h < 2 ^ 32 -> 0 <= fold_left hash_step s h < 2 ^ 32.
Proof.
  revert h. induction s as [|c s IH]; intros h Hh; simpl.
  - exact Hh.
  - apply IH, hash_step_range.
Qed.

(** The hash is an unsigned 32-bit number. *)
Lemma hashString_range (s : jsstring) : 0 <= hashString s < 2 ^ 32.
Proof. unfold hashString. apply fold_hash_range. lia. Qed.

(** The loop of [hashString] is the recurrence of the specification. *)
Lemma spec_hash_fold (s : jsstring) (h : Z) :
  spec_hash h s = fold_left hash_step s h.
Proof.
  revert h. induction s as [|c s IH]; intros h; simpl.
  - reflexivity.
  - rewrite IH. reflexivity.
Qed.

Lemma spec_hash_hashString (s : jsstring) : spec_hash 0 s = hashString s.
Proof. apply spec_hash_fold. Qed.

Lemma index_in_range {A} (arr : list A) (i : Z) (d : A) :
  0 <= i < length_of arr -> index arr i = Some (nth (Z.to_nat i) arr d).
Proof.
  unfold index, length_of. intros Hi.
  destruct (i <? 0) eqn:E; [lia|].
  apply nth_error_nth'. lia.
Qed.

Lemma index_negative {A} (arr : list A) (i : Z) : i < 0 -> index arr i = None.
Proof. unfold index. intros Hi. destruct (i <? 0) eqn:E; [reflexivity|lia]. Qed.

(** The adjective is always an entry of the table. *)
Lemma adjective_in_table (h : Z) :
  0 <= h ->
  index ADJECTIVES (rem h (length_of ADJECTIVES))
  = Some (nth (Z.to_nat (h mod 10)) ADJECTIVES []).
Proof.
  intros Hh. change (length_of ADJECTIVES) with 10. unfold rem.
  rewrite Z.rem_mod_nonneg by lia.
  apply index_in_range. change (length_of ADJECTIVES) with 10.
  apply Z.mod_pos_bound. lia.
Qed.

(** The number always has three digits. *)
Lemma number_three_digits (h : Z) :
  0 <= h -> rem h 900 + 100 = h mod 900 + 100 /\ 100 <= rem h 900 + 100 <= 999.
Proof.
  intros Hh. unfold rem. rewrite Z.rem_mod_nonneg by lia.
  pose proof (Z.mod_pos_bound h 900). lia.
Qed.

(** Below 2^31 the signed shift [>>] is the shift of the unsigned hash. *)
Lemma sar_low (h : Z) : 0 <= h < 2 ^ 31 -> sar h 8 = Z.shiftr h 8.
Proof.
  intros Hh. unfold sar, to_int32, to_uint32.
  rewrite (Z.mod_small h) by lia.
  destruct (h <? 2 ^ 31) eqn:E; [reflexivity|lia].
Qed.

(** From 2^31 on, [>>] sees a negative number. *)
Lemma sar_high (h : Z) :
  2 ^ 31 <= h < 2 ^ 32 -> sar h 8 = Z.shiftr (h - 2 ^ 32) 8 /\ sar h 8 < 0.
Proof.
  intros Hh. unfold sar, to_int32, to_uint32.
  rewrite (Z.mod_small h) by lia.
  destruct (h <? 2 ^ 31) eqn:E; [lia|].
  split; [reflexivity|].
  change (8 mod 32) with 8. rewrite Z.shiftr_div_pow2 by lia.
  apply Z.div_lt_upper_bound; lia.
Qed.

(** Where the hash is below 2^31 the code computes the pseudonym of the
    specification. *)
Lemma generatePseudonym_low_hash (anonymousId : option jsstring) :
  hashString (or_else anonymousId (str "anon")) < 2 ^ 31 ->
  generatePseudonym anonymousId = spec_pseudonym anonymousId.
Proof.
  intros Hlow. unfold generatePseudonym, spec_pseudonym.
  change (match anonymousId with
          | Some (c :: s) => c :: s
          | _ => str "anon"
          end) with (or_else anonymousId (str "anon")).
  rewrite spec_hash_hashString.
  set (h := hashString (or_else anonymousId (str "anon"))) in *.
  pose proof (hashString_range (or_else anonymousId (str "anon"))) as Hr.
  fold h in Hr.
  rewrite adjective_in_table by lia.
  rewrite sar_low by lia.
  assert (Hs : 0 <= Z.shiftr h 8) by (apply Z.shiftr_nonneg; lia).
  change (length_of NOUNS) with 10. unfold rem at 1.
  rewrite Z.rem_mod_nonneg by lia.
  rewrite (index_in_range NOUNS _ []) by
    (change (length_of NOUNS) with 10; apply Z.mod_pos_bound; lia).
  destruct (number_three_digits h) as [-> _]; [lia|].
  reflexivity.
Qed.

(** The noun is [undefined] exactly when the index is negative, which
    needs a hash of 2^31 or more. *)
Lemma noun_undefined_iff (h : Z) :
  0 <= h < 2 ^ 32 ->
  index NOUNS (rem (sar h 8) (length_of NOUNS)) = None
  <-> 2 ^ 31 <= h /\ Z.rem (sar h 8) 10 <> 0.
Proof.
  intros Hh. change (length_of NOUNS) with 10. unfold rem. split.
  - intros Hnone.
    destruct (Z_lt_le_dec h (2 ^ 31)) as [Hlow|Hhigh].
    + rewrite sar_low in Hnone by lia.
      assert (Hs : 0 <= Z.shiftr h 8) by (apply Z.shiftr_nonneg; lia).
      rewrite Z.rem_mod_nonneg in Hnone by lia.
      rewrite (index_in_range NOUNS _ []) in Hnone; [discriminate|].
      change (length_of NOUNS) with 10. apply Z.mod_pos_bound. lia.
    + split; [lia|]. intros H0. rewrite H0 in Hnone. discriminate.
  - intros [Hhigh Hne]. apply index_negative.
    destruct (sar_high h) as [_ Hneg]; [lia|].
    pose proof (Z.rem_bound_pos_neg (sar h 8) 10 ltac:(lia) ltac:(lia)).
    lia.
Qed.

(** C1: the pseudonym of the identifier ["anon_x"].  Its hash is
    2882030533, above 2^31, so the signed shift [hash >> 8] is negative,
    [NOUNS[-5]] is [undefined] and the code returns
    ["Gentleundefined-233"], where the algorithm of the specification
    gives ["GentleStar-233"]. *)
Theorem generatePseudonym_anon_x_diverges :
  hashString (str "anon_x") = 2882030533
  /\ rem (sar 2882030533 8) (length_of NOUNS) = -5
  /\ generatePseudonym (Some (str "anon_x")) = str "Gentleundefined-233"
  /\ spec_pseudonym (Some (str "anon_x")) = str "GentleStar-233"
  /\ generatePseudonym (Some (str "anon_x")) <> spec_pseudonym (Some (str "anon_x")).
Proof.
  repeat split; try (vm_compute; reflexivity).
  vm_compute. discriminate.
Qed.

(** C8: the pseudonym of the identifier ["anon_test_000"] is not
    well-formed.  The index into the noun table is negative, the lookup
    is [undefined], and the result ["Braveundefined-770"] starts with no
    adjective of the table followed by a noun of the table and a hyphen. *)
Theorem generatePseudonym_anon_test_000_malformed :
  rem (sar (hashString (str "anon_test_000")) 8) (length_of NOUNS) < 0
  /\ index NOUNS (rem (sar (hashString (str "anon_test_000")) 8) (length_of NOUNS)) = None
  /\ generatePseudonym (Some (str "anon_test_000")) = str "Braveundefined-770"
  /\ forallb
       (fun adjective =>
          forallb
            (fun noun =>
               negb (Http.startsWith
                       (generatePseudonym (Some (str "anon_test_000")))
                       (adjective ++ noun ++ str "-")))
            NOUNS)
       ADJECTIVES = true.
Proof. repeat split; vm_compute; reflexivity. Qed.

End PseudonymFacts.

(** ** The placeholder handler of src/api/forum.ts *)
Module ForumMockFacts.
Import Js Http Regex ForumMock Scenario.

Lemma jsstring_eqb_true (a b : jsstring) : jsstring_eqb a b = true <-> a = b.
Proof. unfold jsstring_eqb. apply bool_decide_eq_true. Qed.

Lemma jsstring_eqb_refl (a : jsstring) : jsstring_eqb a a = true.
Proof. apply jsstring_eqb_true. reflexivity. Qed.

(** C10, counterexample: a POST whose author id is a string without the
    prefix and whose content is missing is turned down by the first guard,
    with its message. *)
Lemma handler_missing_content_message :
  startsWith (str "user_42") (str "anon_") = false
  /\ handler 0 (post_request VUndefined VUndefined (VStr (str "user_42")) VUndefined)
     = Respond 400 (Error (str "Missing required fields"))
  /\ handler 0 (post_request VUndefined VUndefined (VStr (str "user_42")) VUndefined)
     <> Respond 400 (Error (str "Invalid author ID format")).
Proof.
  split; [reflexivity|]. split; [reflexivity|].
  vm_compute. discriminate.
Qed.

(** C10 (amended): a POST with a missing (falsy) author id or content is
    answered 400 "Missing required fields"; past that guard, an author id
    that is a string without the prefix "anon_" is answered 400 "Invalid
    author ID format"; and a 201 answer carries an author id that is a
    string starting with "anon_". *)
Theorem handler_post_author_check (now : Z) (req : Request) :
  (method req = str "POST" ->
   truthy (b_authorId (body req)) = false \/ truthy (b_content (body req)) = false ->
   handler now req = Respond 400 (Error (str "Missing required fields")))
  /\ (forall a,
        method req = str "POST" ->
        b_authorId (body req) = VStr a ->
        truthy (b_authorId (body req)) = true ->
        truthy (b_content (body req)) = true ->
        startsWith a (str "anon_") = false ->
        handler now req = Respond 400 (Error (str "Invalid author ID format")))
  /\ (forall c,
        handler now req = Respond 201 (Post c) ->
        exists a, b_authorId (body req) = VStr a
                  /\ startsWith a (str "anon_") = true
                  /\ c_authorId c = VStr a).
Proof.
  unfold handler. repeat split.
  - intros Hm Hmiss. rewrite Hm. change (jsstring_eqb (str "POST") (str "GET")) with false.
    rewrite jsstring_eqb_refl. cbv iota.
    destruct Hmiss as [-> | ->]; simpl; [reflexivity|].
    rewrite orb_true_r. reflexivity.
  - intros a Hm Ha Hta Htc Hpre. rewrite Hm.
    change (jsstring_eqb (str "POST") (str "GET")) with false.
    rewrite jsstring_eqb_refl. cbv iota.
    rewrite Hta, Htc. simpl. rewrite Ha, Hpre. reflexivity.
  - intros c H.
    destruct (jsstring_eqb (method req) (str "GET")).
    { destruct (param_truthy _); discriminate. }
    destruct (jsstring_eqb (method req) (str "POST")); [|discriminate].
    destruct (negb (truthy (b_authorId (body req))) || negb (truthy (b_content (body req))));
      [discriminate|].
    destruct (b_authorId (body req)) as [| |b|n|a] eqn:Ea; try discriminate.
    destruct (startsWith a (str "anon_")) eqn:Hpre; simpl in H; [|discriminate].
    destruct (test emailPattern _); [discriminate|].
    injection H as <-. exists a. simpl. auto.
Qed.

Lemma handler_post_author_check_witness :
  handler 7 (post_request VUndefined (VStr (str "hello there")) (VStr (str "user_42")) VUndefined)
  = Respond 400 (Error (str "Invalid author ID format"))
  /\ handler 7 (post_request VUndefined VUndefined (VStr (str "user_42")) VUndefined)
     = Respond 400 (Error (str "Missing required fields")).
Proof.
  split.
  - apply (proj1 (proj2 (handler_post_author_check 7
             (post_request VUndefined (VStr (str "hello there"))
                (VStr (str "user_42")) VUndefined))) (str "user_42"));
      reflexivity.
  - apply (proj1 (handler_post_author_check 7
             (post_request VUndefined VUndefined (VStr (str "user_42")) VUndefined)));
      [reflexivity | right; reflexivity].
Defined.

(** An author id that is not a string (and not falsy) makes the call of
    [startsWith] throw: no response is sent by the handler. *)
Lemma handler_post_author_not_string (now : Z) (req : Request) :
  method req = str "POST" ->
  truthy (b_authorId (body req)) = true ->
  truthy (b_content (body req)) = true ->
  (forall a, b_authorId (body req) <> VStr a) ->
  exists e, handler now req = Throw e.
Proof.
  intros Hm Hta Htc Hns. unfold handler. rewrite Hm.
  change (jsstring_eqb (str "POST") (str "GET")) with false.
  rewrite jsstring_eqb_refl. cbv iota. rewrite Hta, Htc. simpl.
  destruct (b_authorId (body req)) as [| |b|n|a]; eauto.
  exfalso. apply (Hns a). reflexivity.
Qed.

End ForumMockFacts.

(** ** The forum handler over the hosted store *)
Module ForumApiFacts.
Import Js Http Regex Store ForumApi Pages Scenario.

Lemma createThread_unfold (env : Env) (db : Db) (title content authorId : value) :
  createThread env db title content authorId
  = handle_post env db {| b_title := title; b_content := content;
                          b_authorId := authorId; b_threadId := VUndefined |}.
Proof. reflexivity. Qed.

Lemma createReply_unfold (env : Env) (db : Db) (threadId content authorId : value) :
  createReply env db threadId content authorId
  = handle_post env db {| b_title := VUndefined; b_content := content;
                          b_authorId := authorId; b_threadId := threadId |}.
Proof. reflexivity. Qed.

(** What an accepted thread insert does to the store. *)
Lemma insert_thread_ok (env : Env) (k : nat) (db db1 : Db)
      (title author_id : value) (thread : thread_row) :
  insert_thread env k db title author_id = (Ok thread, db1) ->
  fails env k = false
  /\ t_id thread = uuid env k
  /\ t_title thread = to_string title
  /\ t_last_activity thread = db_now env k
  /\ forum_threads db1 = forum_threads db ++ [thread]
  /\ forum_posts db1 = forum_posts db.
Proof.
  unfold insert_thread. intros H.
  destruct (fails env k); [discriminate|].
  destruct (negb (not_null title && not_null author_id)); [discriminate|].
  destruct (has_thread db (uuid env k)); [discriminate|].
  injection H as <- <-. simpl. auto 10.
Qed.

(** A refused thread insert leaves the store as it was. *)
Lemma insert_thread_err (env : Env) (k : nat) (db db1 : Db)
      (title author_id : value) (message : jsstring) :
  insert_thread env k db title author_id = (Err message, db1) -> db1 = db.
Proof.
  unfold insert_thread. intros H.
  destruct (fails env k); [injection H as _ <-; reflexivity|].
  destruct (negb (not_null title && not_null author_id));
    [injection H as _ <-; reflexivity|].
  destruct (has_thread db (uuid env k)); [injection H as _ <-; reflexivity|].
  discriminate.
Qed.

(** What an accepted post insert does to the store. *)
Lemma insert_post_ok (env : Env) (k : nat) (db db1 : Db)
      (thread_id content author_id : value) (post : post_row) :
  insert_post env k db thread_id content author_id = (Ok post, db1) ->
  fails env k = false
  /\ has_thread db (to_string thread_id) = true
  /\ p_thread_id post = to_string thread_id
  /\ p_content post = to_string content
  /\ p_author_id post = to_string author_id
  /\ forum_threads db1 = forum_threads db
  /\ forum_posts db1 = forum_posts db ++ [post].
Proof.
  unfold insert_post. intros H.
  destruct (fails env k); [discriminate|].
  destruct (negb (not_null thread_id && not_null content && not_null author_id));
    [discriminate|].
  destruct (has_thread db (to_string thread_id)); [|discriminate].
  destruct (has_post db (uuid env k)); [discriminate|].
  injection H as <- <-. simpl. auto 10.
Qed.

(** A refused post insert leaves the store as it was. *)
Lemma insert_post_err (env : Env) (k : nat) (db db1 : Db)
      (thread_id content author_id : value) (message : jsstring) :
  insert_post env k db thread_id content author_id = (Err message, db1) -> db1 = db.
Proof.
  unfold insert_post. intros H.
  destruct (fails env k); [injection H as _ <-; reflexivity|].
  destruct (negb (not_null thread_id && not_null content && not_null author_id));
    [injection H as _ <-; reflexivity|].
  destruct (has_thread db (to_string thread_id));
    [|injection H as _ <-; reflexivity].
  destruct (has_post db (uuid env k)); [injection H as _ <-; reflexivity|].
  discriminate.
Qed.

(** The one check on the content that the handler makes: an email address
    in the content is answered 400 and nothing is sent to the store. *)
Lemma handle_post_email_rejected (env : Env) (db : Db) (b : Body) :
  truthy (b_authorId b) = true ->
  truthy (b_content b) = true ->
  test emailPattern (to_string (b_content b)) = true ->
  handle_post env db b
  = (Respond 400 (Error (str "Content cannot contain email addresses")), db).
Proof.
  intros Ha Hc He. unfold handle_post. rewrite Ha, Hc, He. reflexivity.
Qed.

(** C3: a phone number in the content, or an email address in the title,
    passes the handler: both rows are stored and the answer is 201.  The
    forms of the pages turn the same inputs down. *)
Theorem handler_accepts_phone_number :
  test phonePattern (str "call 555-123-4567 please") = true
  /\ createThread env_ok db_empty (VStr (str "Hello"))
       (VStr (str "call 555-123-4567 please")) (VStr (str "anon_x"))
     = (Respond 201
          (Thread {| t_id := str "id-0"; t_title := str "Hello";
                     t_author_id := str "anon_x";
                     t_created_at := 1000; t_last_activity := 1000 |}),
        {| forum_threads :=
             [{| t_id := str "id-0"; t_title := str "Hello";
                 t_author_id := str "anon_x";
                 t_created_at := 1000; t_last_activity := 1000 |}];
           forum_posts :=
             [{| p_id := str "id-1"; p_thread_id := str "id-0";
                 p_content := str "call 555-123-4567 please";
                 p_author_id := str "anon_x"; p_created_at := 1001 |}] |})
  /\ fst (createReply env_ok db_two (VStr (str "T"))
            (VStr (str "call 555-123-4567 please")) (VStr (str "anon_y")))
     = Respond 201
         (Post {| p_id := str "id-0"; p_thread_id := str "T";
                  p_content := str "call 555-123-4567 please";
                  p_author_id := str "anon_y"; p_created_at := 1000 |})
  /\ test emailPattern (str "write to test@example.com") = true
  /\ (exists thread db',
        createThread env_ok db_empty (VStr (str "write to test@example.com"))
          (VStr (str "This is a test post")) (VStr (str "anon_x"))
        = (Respond 201 (Thread thread), db'))
  /\ checkNewThread (str "Hello") (str "call 555-123-4567 please")
     = Some (str "Posts cannot contain phone numbers")
  /\ checkReply (str "call 555-123-4567 please")
     = Some (str "Replies cannot contain email addresses or phone numbers").
Proof.
  repeat split; try (vm_compute; reflexivity).
  eexists _, _. vm_compute. reflexivity.
Qed.

(** C7: a title of two characters passes the handler, as do a content of
    one character and a title of 201 characters; only the form of the page
    checks the lower bounds. *)
Theorem handler_accepts_short_title :
  length (str "Hi") = 2%nat
  /\ createThread env_ok db_empty (VStr (str "Hi"))
       (VStr (str "This is a test post")) (VStr (str "anon_x"))
     = (Respond 201
          (Thread {| t_id := str "id-0"; t_title := str "Hi";
                     t_author_id := str "anon_x";
                     t_created_at := 1000; t_last_activity := 1000 |}),
        {| forum_threads :=
             [{| t_id := str "id-0"; t_title := str "Hi";
                 t_author_id := str "anon_x";
                 t_created_at := 1000; t_last_activity := 1000 |}];
           forum_posts :=
             [{| p_id := str "id-1"; p_thread_id := str "id-0";
                 p_content := str "This is a test post";
                 p_author_id := str "anon_x"; p_created_at := 1001 |}] |})
  /\ (exists thread db',
        createThread env_ok db_empty (VStr (str "Hello")) (VStr (str "x"))
          (VStr (str "anon_x"))
        = (Respond 201 (Thread thread), db'))
  /\ (exists thread db',
        createThread env_ok db_empty (VStr (repeat 97%N 201))
          (VStr (str "This is a test post")) (VStr (str "anon_x"))
        = (Respond 201 (Thread thread), db')
        /\ length (t_title thread) = 201%nat)
  /\ checkNewThread (str "Hi") (str "This is a test post")
     = Some (str "Title must be at least 3 characters long")
  /\ checkNewThread (str "Hey") (str "This is a test post") = None.
Proof.
  repeat split; try (vm_compute; reflexivity).
  - eexists _, _. vm_compute. reflexivity.
  - eexists _, _. split; vm_compute; reflexivity.
Qed.

(** C2, counterexample: the post insert of createThread fails after the
    thread insert went through; the answer is 500 and the store keeps a
    thread without a post. *)
Lemma createThread_leaves_thread_without_post :
  createThread env_second_fails db_empty (VStr (str "Hello"))
    (VStr (str "This is a test post")) (VStr (str "anon_x"))
  = (Respond 500 (Error (str "store request failed")), db_thread_only)
  /\ forum_threads db_thread_only = [thread_hello]
  /\ forum_posts db_thread_only = [].
Proof. repeat split; vm_compute; reflexivity. Qed.

(** C2 (amended): createThread sends two inserts one after the other.  A
    createThread answered 201 has added the thread row and a post row of
    that thread with the same content.  When the thread insert has gone
    through and the insert of the initial post fails, the answer is 500
    with the message of the store, and the thread row stays in the store
    while no post row was added. *)
Theorem createThread_two_inserts
        (env : Env) (db : Db) (title content authorId : value) :
  (forall thread db',
      createThread env db title content authorId
      = (Respond 201 (Thread thread), db') ->
      exists post,
        forum_threads db' = forum_threads db ++ [thread]
        /\ forum_posts db' = forum_posts db ++ [post]
        /\ p_thread_id post = t_id thread
        /\ p_content post = to_string content)
  /\ (forall thread db1 message db2,
        truthy authorId = true ->
        truthy content = true ->
        truthy title = true ->
        test emailPattern (to_string content) = false ->
        insert_thread env 0 db title authorId = (Ok thread, db1) ->
        insert_post env 1 db1 (VStr (t_id thread)) content authorId
        = (Err message, db2) ->
        createThread env db title content authorId
        = (Respond 500 (Error message), db1)
        /\ forum_threads db1 = forum_threads db ++ [thread]
        /\ forum_posts db1 = forum_posts db).
Proof.
  rewrite createThread_unfold. unfold handle_post. cbn [b_title b_content b_authorId b_threadId truthy].
  split.
  - intros thread db' H.
    destruct (negb (truthy authorId) || negb (truthy content)); [discriminate|].
    destruct (test emailPattern (to_string content)); [discriminate|].
    cbv iota in H.
    destruct (negb (truthy title)); [discriminate|].
    destruct (insert_thread env 0 db title authorId) as [[t|m] db1] eqn:Et;
      [|discriminate].
    destruct (insert_post env 1 db1 (VStr (t_id t)) content authorId)
      as [[post|m] db2] eqn:Ep; [|discriminate].
    injection H as <- <-.
    apply insert_thread_ok in Et as (_ & _ & _ & _ & Ht & Htp).
    apply insert_post_ok in Ep as (_ & _ & Hid & Hc & _ & Hpt & Hpp).
    exists post. rewrite Hpt, Hpp, Ht, Htp. auto.
  - intros thread db1 message db2 Ha Hc Ht He Hit Hip.
    rewrite Ha, Hc, Ht, He. cbn [negb orb]. cbv iota.
    rewrite Hit, Hip.
    pose proof (insert_post_err _ _ _ _ _ _ _ _ Hip) as ->.
    apply insert_thread_ok in Hit as (_ & _ & _ & _ & Hth & Hpo).
    auto.
Qed.

Lemma createThread_two_inserts_witness :
  (exists post,
      forum_threads db_hello = forum_threads db_empty ++ [thread_hello]
      /\ forum_posts db_hello = forum_posts db_empty ++ [post]
      /\ p_thread_id post = t_id thread_hello
      /\ p_content post = to_string (VStr (str "This is a test post")))
  /\ createThread env_second_fails db_empty (VStr (str "Hello"))
       (VStr (str "This is a test post")) (VStr (str "anon_x"))
     = (Respond 500 (Error (str "store request failed")), db_thread_only).
Proof.
  split.
  - apply (proj1 (createThread_two_inserts env_ok db_empty (VStr (str "Hello"))
                    (VStr (str "This is a test post")) (VStr (str "anon_x")))).
    vm_compute. reflexivity.
  - refine (proj1 (proj2 (createThread_two_inserts env_second_fails db_empty
                            (VStr (str "Hello")) (VStr (str "This is a test post"))
                            (VStr (str "anon_x")))
                     thread_hello db_thread_only (str "store request failed")
                     db_thread_only _ _ _ _ _ _));
      vm_compute; reflexivity.
Defined.

(** *** Reading a thread *)

Lemma getThread_unfold (env : Env) (db : Db) (threadId : jsstring) :
  threadId <> [] ->
  getThread env db threadId
  = match select_thread env 0 db threadId with
    | Err message => Respond 500 (Error message)
    | Ok thread =>
        match select_replies env 1 db threadId with
        | Err message => Respond 500 (Error message)
        | Ok replies => Respond 200 (ThreadWithReplies thread replies)
        end
    end.
Proof. destruct threadId as [|c s]; [congruence|]. reflexivity. Qed.

Lemma filter_no_thread (id : jsstring) (l : list thread_row) :
  (forall t, In t l -> t_id t <> id) ->
  filter (fun t => t_id t = id) l = [].
Proof.
  induction l as [|x l IH]; intros Hno; [reflexivity|].
  rewrite filter_cons_False by (apply Hno; left; reflexivity).
  apply IH. intros t Ht. apply Hno. right. exact Ht.
Qed.

(** Under the primary key a stored id selects its one row. *)
Lemma filter_one_thread (t : thread_row) (l : list thread_row) :
  NoDup (map t_id l) -> In t l ->
  filter (fun x => t_id x = t_id t) l = [t].
Proof.
  induction l as [|x l IH]; intros Hnd Hin; [destruct Hin|].
  simpl in Hnd. apply NoDup_cons in Hnd as [Hx Hnd].
  destruct Hin as [->|Hin].
  - rewrite filter_cons_True by reflexivity. f_equal.
    apply filter_no_thread. intros y Hy Heq. apply Hx.
    rewrite <- Heq. apply list_elem_of_In, in_map, Hy.
  - rewrite filter_cons_False; [apply IH; assumption|].
    intros Heq. apply Hx. rewrite Heq.
    apply list_elem_of_In, in_map, Hin.
Qed.

#[local] Instance created_asc_trans : Transitive created_asc.
Proof. unfold created_asc. intros x y z. lia. Qed.

#[local] Instance created_asc_total : Total created_asc.
Proof. unfold created_asc. intros x y. lia. Qed.

#[local] Instance activity_desc_trans : Transitive activity_desc.
Proof. unfold activity_desc. intros x y z. lia. Qed.

#[local] Instance activity_desc_total : Total activity_desc.
Proof. unfold activity_desc. intros x y. lia. Qed.




(** *** Listing the threads *)

(** Integers below [2^53] in magnitude are doubles, and sums, differences
    and products that stay below it are exact. *)
Lemma round_double_exact (z : Z) :
  - 2 ^ 53 < z < 2 ^ 53 -> round_double z = Finite z.
Proof.
  intros Hz. unfold round_double.
  destruct (Z.abs z <? 2 ^ 53) eqn:E; [reflexivity|].
  apply Z.ltb_ge in E. lia.
Qed.

(** Beyond [2^53] a number read by [parseInt] is rounded, beyond the
    largest double it is an infinity, and without a digit it is [NaN]. *)
Lemma parseInt_rounds :
  parseInt (str "9007199254740993") = Finite 9007199254740992
  /\ parseInt (str "1" ++ repeat 48%N 309) = Infinite false
  /\ parseInt (str "abc") = NaN
  /\ parseInt (str " -12px") = Finite (-12)
  /\ parseInt (str "0x1f") = Finite 31.
Proof. repeat split; vm_compute; reflexivity. Qed.

Lemma num_add_exact (x y : Z) :
  - 2 ^ 53 < x + y < 2 ^ 53 -> num_add (Finite x) (Finite y) = Finite (x + y).
Proof. intros H. cbn [num_add]. apply round_double_exact. exact H. Qed.

Lemma num_sub_exact (x y : Z) :
  - 2 ^ 53 < x - y < 2 ^ 53 -> num_sub (Finite x) (Finite y) = Finite (x - y).
Proof.
  intros H. unfold num_sub. cbn [num_neg num_add].
  rewrite round_double_exact by lia. reflexivity.
Qed.

Lemma num_mul_exact (x y : Z) :
  - 2 ^ 53 < x * y < 2 ^ 53 -> num_mul (Finite x) (Finite y) = Finite (x * y).
Proof. intros H. cbn [num_mul]. apply round_double_exact. exact H. Qed.

Lemma listThreads_unfold (env : Env) (db : Db) (page limit : option jsstring) :
  listThreads env db page limit
  = let pageNum := parseInt (default (str "1") page) in
    let limitNum := parseInt (default (str "10") limit) in
    let start := num_mul (num_sub pageNum (Finite 1)) limitNum in
    let end_ := num_sub (num_add start limitNum) (Finite 1) in
    match select_threads env 0 db start end_ with
    | Err message => Respond 500 (Error message)
    | Ok (threads, count) =>
        Respond 200
          (ThreadList threads (to_json pageNum)
             (if count =? 0 then Some 1 else to_json (ceil_div count limitNum)))
    end.
Proof. reflexivity. Qed.

(** The range of a page, for positive [page] and [limit] whose product is
    below [2^53]. *)
Lemma page_range (p n : Z) :
  1 <= p -> 1 <= n -> p * n < 2 ^ 53 ->
  num_mul (num_sub (Finite p) (Finite 1)) (Finite n) = Finite ((p - 1) * n)
  /\ num_sub (num_add (Finite ((p - 1) * n)) (Finite n)) (Finite 1)
     = Finite ((p - 1) * n + n - 1).
Proof.
  intros Hp Hn Hb.
  rewrite num_sub_exact by nia. rewrite num_mul_exact by nia.
  rewrite num_add_exact by nia. rewrite num_sub_exact by nia.
  split; reflexivity.
Qed.


(** What the store answers to the query of a page that starts within the
    table (or right after its last row). *)
Lemma select_threads_page (env : Env) (db : Db) (p n : Z) :
  1 <= p -> 1 <= n -> p * n < 2 ^ 53 ->
  (p - 1) * n <= length_of (forum_threads db) ->
  fails env 0 = false ->
  select_threads env 0 db (Finite ((p - 1) * n)) (Finite ((p - 1) * n + n - 1))
  = Ok (take (Z.to_nat n)
          (drop (Z.to_nat ((p - 1) * n))
             (merge_sort activity_desc (forum_threads db))),
        length_of (forum_threads db)).
Proof.
  intros Hp Hn Hb Hoff Hf. unfold select_threads. rewrite Hf.
  rewrite num_sub_exact by nia. rewrite num_add_exact by nia.
  replace ((p - 1) * n + n - 1 - (p - 1) * n + 1) with n by lia.
  unfold length_of in Hoff.
  destruct ((p - 1) * n <? 0) eqn:E1; [nia|].
  destruct (n <? 0) eqn:E2; [lia|].
  destruct (2 ^ 63 <=? (p - 1) * n) eqn:E3; [nia|].
  destruct (2 ^ 63 <=? n) eqn:E4; [nia|].
  destruct (Z.of_nat (length (forum_threads db)) <? (p - 1) * n) eqn:E5; [lia|].
  reflexivity.
Qed.

(** Requests that the store does not serve are answered 500: a page that
    starts beyond the last row, and a limit that [parseInt] reads as an
    infinity, for which the range of the first page is [NaN]. *)
Lemma listThreads_refused_ranges :
  listThreads env_ok db_two (Some (str "4")) (Some (str "1"))
  = Respond 500 (Error (str "requested range not satisfiable"))
  /\ num_mul (num_sub (parseInt (str "1")) (Finite 1))
       (parseInt (str "1" ++ repeat 48%N 309)) = NaN
  /\ listThreads env_ok db_two (Some (str "1")) (Some (str "1" ++ repeat 48%N 309))
     = Respond 500 (Error (str "requested range not satisfiable")).
Proof. repeat split; vm_compute; reflexivity. Qed.




(** *** Replies and the order of the list *)

Lemma StronglySorted_take_drop {A} (R : relation A) (l : list A) (a b : nat) :
  StronglySorted R l -> StronglySorted R (take a (drop b l)).
Proof.
  intros Hs.
  rewrite <- (take_drop b l) in Hs. apply StronglySorted_app_1_r in Hs.
  rewrite <- (take_drop a (drop b l)) in Hs.
  apply StronglySorted_app_1_l in Hs. exact Hs.
Qed.

(** Every list of threads that listThreads returns is ordered by
    last_activity descending. *)
Lemma listThreads_sorted (env : Env) (db : Db) (page limit : option jsstring)
      (threads : list thread_row) (pg tp : option Z) :
  listThreads env db page limit = Respond 200 (ThreadList threads pg tp) ->
  StronglySorted activity_desc threads.
Proof.
  rewrite listThreads_unfold. cbv zeta. unfold select_threads.
  destruct (fails env 0); [discriminate|].
  destruct (num_mul _ _) as [| |offset]; try discriminate.
  destruct (num_add _ _) as [| |size]; try discriminate.
  destruct ((offset <? 0) || (size <? 0) || (2 ^ 63 <=? offset) || (2 ^ 63 <=? size));
    [discriminate|].
  destruct (Z.of_nat (length (forum_threads db)) <? offset); [discriminate|].
  intros H. injection H as <- _ _.
  apply StronglySorted_take_drop, StronglySorted_merge_sort; apply _.
Qed.

(** The list depends on the threads of the store only. *)
Lemma listThreads_threads (env : Env) (db db' : Db) (page limit : option jsstring) :
  forum_threads db' = forum_threads db ->
  listThreads env db' page limit = listThreads env db page limit.
Proof.
  intros Hth. rewrite !listThreads_unfold. cbv zeta. unfold select_threads.
  rewrite Hth. reflexivity.
Qed.

Lemma has_thread_In (db : Db) (id : jsstring) :
  has_thread db id = true -> exists t, In t (forum_threads db) /\ t_id t = id.
Proof.
  unfold has_thread. intros H. apply existsb_exists in H as (t & Hin & Heq).
  exists t. split; [exact Hin|]. apply bool_decide_eq_true in Heq. exact Heq.
Qed.

(** The update of last_activity is a command that no policy of
    [forum_threads] is written for: it leaves the store as it is. *)
Lemma update_last_activity_unseen (env : Env) (k : nat) (db : Db)
      (id : value) (ts : Z) :
  snd (update_last_activity env k db id ts) = db.
Proof. unfold update_last_activity. destruct (fails env k); reflexivity. Qed.

(** What a createReply answered 201 has done to the store. *)
Lemma createReply_created (env : Env) (db db' : Db)
      (threadId content authorId : value) (post : post_row) :
  createReply env db threadId content authorId = (Respond 201 (Post post), db') ->
  has_thread db (to_string threadId) = true
  /\ p_thread_id post = to_string threadId
  /\ p_content post = to_string content
  /\ forum_posts db' = forum_posts db ++ [post]
  /\ forum_threads db' = forum_threads db.
Proof.
  rewrite createReply_unfold. unfold handle_post.
  cbn [b_title b_content b_authorId b_threadId].
  destruct (negb (truthy authorId) || negb (truthy content)); [discriminate|].
  destruct (test emailPattern (to_string content)); [discriminate|].
  destruct (truthy threadId).
  - destruct (insert_post env 0 db threadId content authorId)
      as [[data|m] db1] eqn:Ep; [|discriminate].
    apply insert_post_ok in Ep as (_ & Hhas & Hid & Hc & _ & Hth & Hpo).
    pose proof (update_last_activity_unseen env 1 db1 threadId (now env)) as Hu.
    destruct (update_last_activity env 1 db1 threadId (now env)) as [u db2].
    cbn [snd] in Hu. subst db2.
    intros H. injection H as <- <-. auto.
  - cbn [truthy negb]. discriminate.
Qed.

(** A createReply answered 201 leaves every thread as it was, the parent
    included: the update of last_activity the handler sends is a command
    the policies of the schema do not admit, it changes no row, and the
    handler does not look at its answer.  So a listThreads after the reply
    answers what it would have answered before. *)
Lemma createReply_keeps_last_activity
      (env : Env) (db db' : Db) (threadId content authorId : value)
      (post : post_row) :
  createReply env db threadId content authorId = (Respond 201 (Post post), db') ->
  forum_threads db' = forum_threads db
  /\ (exists t, In t (forum_threads db') /\ t_id t = to_string threadId)
  /\ (forall env' page limit,
        listThreads env' db' page limit = listThreads env' db page limit).
Proof.
  intros Hreply.
  apply createReply_created in Hreply as (Hhas & _ & _ & _ & Hth).
  split; [exact Hth|]. split.
  - rewrite Hth. apply has_thread_In. exact Hhas.
  - intros env' page limit. apply listThreads_threads. exact Hth.
Qed.

(** C5: every list of threads that listThreads returns is ordered by
    last_activity descending, but a reply does not move its thread to the
    front.  Thread T, last active at 100, gets a reply at 1000 while thread
    U was last active at 200, the store answering every request: the reply
    is stored and answered 201, the update of last_activity is sent and
    answered without an error, yet T keeps its last_activity of 100 and the
    list that follows is [U; T], ordered and with U first. *)
Theorem createReply_thread_stays_behind :
  exists post db',
    createReply env_ok db_two (VStr (str "T"))
      (VStr (str "A sufficiently long reply text")) (VStr (str "anon_y"))
    = (Respond 201 (Post post), db')
    /\ now env_ok = 1000
    /\ fst (update_last_activity env_ok 1
              {| forum_threads := forum_threads db_two;
                 forum_posts := forum_posts db_two ++ [post] |}
              (VStr (str "T")) (now env_ok)) = Ok tt
    /\ forum_posts db' = forum_posts db_two ++ [post]
    /\ forum_threads db' = [thread_T; thread_U]
    /\ t_last_activity thread_T = 100
    /\ t_last_activity thread_U = 200
    /\ listThreads env_ok db' None None
       = Respond 200 (ThreadList [thread_U; thread_T] (Some 1) (Some 1))
    /\ StronglySorted activity_desc [thread_U; thread_T].
Proof.
  eexists _, _.
  split; [vm_compute; reflexivity|].
  repeat (split; [vm_compute; reflexivity|]).
  apply (listThreads_sorted env_ok db_two None None _ (Some 1) (Some 1)).
  vm_compute. reflexivity.
Qed.

End ForumApiFacts.

(** ** The anonymous identifier *)
Module CommunityContextFacts.
Import Js Http CommunityContext.

Lemma digit36_value (d : N) :
  (d < 36)%N -> digit_value 36 (digit36 d) = Some (Z.of_N d).
Proof.
  intros Hd. unfold digit_value, digit36.
  destruct (d <? 10)%N eqn:E.
  - apply N.ltb_lt in E.
    replace (Z.of_N (48 + d)) with (48 + Z.of_N d) by lia.
    destruct ((48 <=? 48 + Z.of_N d) && (48 + Z.of_N d <=? 57)) eqn:E1; [|lia].
    destruct (48 + Z.of_N d - 48 <? 36) eqn:E2; [f_equal; lia|lia].
  - apply N.ltb_ge in E.
    replace (Z.of_N (97 + (d - 10))) with (87 + Z.of_N d) by lia.
    destruct ((48 <=? 87 + Z.of_N d) && (87 + Z.of_N d <=? 57)) eqn:E1; [lia|].
    destruct ((97 <=? 87 + Z.of_N d) && (87 + Z.of_N d <=? 122)) eqn:E2; [|lia].
    destruct (87 + Z.of_N d - 97 + 10 <? 36) eqn:E3; [f_equal; lia|lia].
Qed.

Lemma to_radix36_parse (fuel : nat) :
  forall (n : N) (acc : jsstring),
    (n < 2 ^ N.of_nat (S fuel))%N ->
    digits 36 None (to_radix36 (S fuel) n acc)
    = digits 36 (Some (Z.of_N n)) acc.
Proof.
  induction fuel as [|fuel IH]; intros n acc Hn.
  - change (2 ^ N.of_nat 1)%N with 2%N in Hn.
    cbn [to_radix36]. rewrite (N.div_small n 36), (N.mod_small n 36) by lia.
    cbn [N.eqb digits]. rewrite digit36_value by lia. reflexivity.
  - change (to_radix36 (S (S fuel)) n acc)
      with (if (n / 36 =? 0)%N then digit36 (n mod 36)%N :: acc
            else to_radix36 (S fuel) (n / 36)%N (digit36 (n mod 36)%N :: acc)).
    pose proof (N.mod_lt n 36 ltac:(lia)) as Hm.
    pose proof (N.div_mod n 36 ltac:(lia)) as Hdm.
    destruct (n / 36 =? 0)%N eqn:E.
    + apply N.eqb_eq in E. cbn [digits]. rewrite digit36_value by lia.
      do 2 f_equal. lia.
    + apply N.eqb_neq in E. rewrite IH.
      * cbn [digits]. rewrite digit36_value by lia. do 2 f_equal. lia.
      * replace (N.of_nat (S (S fuel))) with (N.succ (N.of_nat (S fuel))) in Hn by lia.
        rewrite N.pow_succ_r' in Hn.
        apply N.Div0.div_lt_upper_bound. lia.
Qed.

(** [toString36] renders its argument in base 36: reading the digits back
    gives the number. *)
Lemma toString36_parse (n : N) :
  digits 36 None (toString36 n) = Some (Z.of_N n).
Proof.
  unfold toString36. rewrite to_radix36_parse; [reflexivity|].
  destruct n as [|p]; [reflexivity|].
  replace (N.of_nat (S (N.to_nat (N.log2 (N.pos p)))))
    with (N.succ (N.log2 (N.pos p))) by lia.
  apply N.log2_spec. lia.
Qed.

Lemma substring_2_10 (s : jsstring) :
  substring s 2 10 = take 8 (drop 2 s).
Proof. reflexivity. Qed.

(** C9, counterexample: [Math.random()] returns one half, whose rendering
    in base 36 is ["0.i"]; the token is the one character ["i"]. *)
Lemma generateAnonymousId_short_token :
  generateAnonymousId (str "0.i") 1700000000000 = str "anon_i_loyw3v28"
  /\ substring (str "0.i") 2 10 = str "i"
  /\ length (substring (str "0.i") 2 10) <> 8%nat.
Proof. repeat split; vm_compute; congruence. Qed.

Lemma digit36_alphanumeric (d : N) :
  (d < 36)%N -> alphanumeric (digit36 d) = true.
Proof.
  intros Hd. unfold alphanumeric, digit36.
  destruct (d <? 10)%N eqn:E.
  - apply N.ltb_lt in E. apply orb_true_iff. left.
    apply andb_true_iff. split; apply N.leb_le; lia.
  - apply N.ltb_ge in E. apply orb_true_iff. right.
    apply andb_true_iff. split; apply N.leb_le; lia.
Qed.

Lemma to_radix36_alphanumeric (fuel : nat) :
  forall (n : N) (acc : jsstring),
    Forall (fun c => alphanumeric c = true) acc ->
    Forall (fun c => alphanumeric c = true) (to_radix36 fuel n acc).
Proof.
  induction fuel as [|fuel IH]; intros n acc Hacc; [exact Hacc|].
  cbn [to_radix36].
  assert (Hacc' : Forall (fun c => alphanumeric c = true)
                    (digit36 (n mod 36)%N :: acc)).
  { constructor; [|exact Hacc]. apply digit36_alphanumeric.
    apply N.mod_lt. lia. }
  destruct (n / 36 =? 0)%N; [exact Hacc'|]. apply IH. exact Hacc'.
Qed.

(** The token cut out of a rendering is made of its first eight fraction
    digits. *)
Lemma substring_fraction36 (ds : list N) :
  substring (fraction36 ds) 2 10 = map digit36 (take 8 ds).
Proof.
  rewrite substring_2_10. destruct ds as [|d ds]; [reflexivity|].
  unfold fraction36. change (drop 2 (str "0." ++ map digit36 (d :: ds)))
    with (map digit36 (d :: ds)).
  apply firstn_map.
Qed.

(** C9 (amended): for a random number whose rendering in base 36 has the
    fraction digits [ds], the identifier that generateAnonymousId produces
    is "anon_" followed by a token, "_" and the time in base 36; the token
    is made of the first eight of those digits, or of all of them when
    there are fewer, so its length is the smaller of 8 and their number;
    the token and the rendering of the time are made of the characters 0-9
    and a-z, and the digits of the time read back as the time. *)
Theorem generateAnonymousId_form (ds : list N) (now : N) :
  Forall (fun d => (d < 36)%N) ds ->
  generateAnonymousId (fraction36 ds) now
  = str "anon_" ++ map digit36 (take 8 ds) ++ str "_" ++ toString36 now
  /\ length (map digit36 (take 8 ds)) = Nat.min 8 (length ds)
  /\ (length (map digit36 (take 8 ds)) = 8%nat <-> (8 <= length ds)%nat)
  /\ Forall (fun c => alphanumeric c = true) (map digit36 (take 8 ds))
  /\ Forall (fun c => alphanumeric c = true) (toString36 now)
  /\ digits 36 None (toString36 now) = Some (Z.of_N now).
Proof.
  intros Hds.
  assert (Hlen : length (map digit36 (take 8 ds)) = Nat.min 8 (length ds))
    by (rewrite length_map, length_take; reflexivity).
  split; [|split; [exact Hlen|split; [|split; [|split]]]].
  - unfold generateAnonymousId. cbv zeta.
    rewrite substring_fraction36. reflexivity.
  - rewrite Hlen. lia.
  - apply Forall_forall. intros c Hin. apply list_elem_of_In in Hin.
    apply in_map_iff in Hin as (d & <- & Hin).
    apply digit36_alphanumeric.
    rewrite Forall_forall in Hds. apply Hds.
    apply list_elem_of_In in Hin. revert Hin. apply (subseteq_take 8).
  - unfold toString36. apply to_radix36_alphanumeric. constructor.
  - apply toString36_parse.
Qed.

Lemma generateAnonymousId_form_witness :
  generateAnonymousId (str "0.k3j2h1g9xyz") 1700000000000
  = str "anon_k3j2h1g9_loyw3v28"
  /\ length (str "k3j2h1g9") = 8%nat
  /\ generateAnonymousId (str "0.i") 1700000000000 = str "anon_i_loyw3v28".
Proof.
  split; [|split].
  - refine (proj1 (generateAnonymousId_form
                     [20; 3; 19; 2; 17; 1; 16; 9; 33; 34; 35]%N
                     1700000000000 _)).
    repeat constructor.
  - reflexivity.
  - refine (proj1 (generateAnonymousId_form [18%N] 1700000000000 _)).
    repeat constructor.
Defined.

End CommunityContextFacts.

(** ** More on the pseudonym generator *)
Module PseudonymMore.
Import Js Pseudonym PseudonymAlgebra PseudonymFacts.

Lemma fold_hash_mod (s : jsstring) (h p : Z) :
  h = p mod 2 ^ 32 ->
  fold_left hash_step s h
  = fold_left (fun acc c => acc * 31 + Z.of_N c) s p mod 2 ^ 32.
Proof.
  revert h p. induction s as [|c s IH]; intros h p Hh; simpl; [exact Hh|].
  apply IH. unfold hash_step, to_uint32. subst h.
  rewrite <- (Z.add_mod_idemp_l (p mod 2 ^ 32 * 31)) by lia.
  rewrite Z.mul_mod_idemp_l by lia.
  rewrite Z.add_mod_idemp_l by lia. reflexivity.
Qed.

Lemma poly31_app (s t : jsstring) :
  poly31 (s ++ t) = poly31 s * 31 ^ Z.of_nat (length t) + poly31 t.
Proof.
  unfold poly31. rewrite fold_left_app.
  generalize (fold_left (fun acc c => acc * 31 + Z.of_N c) s 0) as a.
  induction t as [|c t IH] using rev_ind; intros a.
  - simpl. lia.
  - rewrite !fold_left_app. simpl. rewrite IH.
    rewrite length_app, Nat2Z.inj_add. simpl length.
    rewrite Z.pow_add_r by lia. change (31 ^ Z.of_nat 1) with 31. ring.
Qed.

(** X1: the hash is the value of the code units read as digits in base 31,
    reduced modulo 2^32, and the hash of a concatenation is computed from
    the hash of the first part. *)
Theorem hashString_polynomial (s t : jsstring) :
  hashString s = poly31 s mod 2 ^ 32
  /\ hashString (s ++ t)
     = (hashString s * 31 ^ Z.of_nat (length t) + poly31 t) mod 2 ^ 32.
Proof.
  assert (Hp : forall u, hashString u = poly31 u mod 2 ^ 32)
    by (intros u; apply fold_hash_mod; reflexivity).
  split; [apply Hp|].
  rewrite (Hp (s ++ t)), poly31_app, (Hp s).
  rewrite <- (Z.add_mod_idemp_l (poly31 s mod 2 ^ 32 * _)) by lia.
  rewrite Z.mul_mod_idemp_l by lia.
  rewrite Z.add_mod_idemp_l by lia. reflexivity.
Qed.

(** X2: every pseudonym is an adjective of the table, then a noun of the
    table or the text "undefined", a hyphen and a number from 100 to 999;
    the noun is of the table whenever the hash is below 2^31. *)
Theorem generatePseudonym_shape (anonymousId : option jsstring) :
  exists adjective nounText number,
    generatePseudonym anonymousId
    = adjective ++ nounText ++ str "-" ++ decimal number
    /\ In adjective ADJECTIVES
    /\ (In nounText NOUNS \/ nounText = str "undefined")
    /\ 100 <= number <= 999
    /\ (hashString (or_else anonymousId (str "anon")) < 2 ^ 31 ->
        In nounText NOUNS).
Proof.
  unfold generatePseudonym.
  set (h := hashString (or_else anonymousId (str "anon"))).
  pose proof (hashString_range (or_else anonymousId (str "anon"))) as Hr.
  fold h in Hr.
  rewrite adjective_in_table by lia.
  destruct (number_three_digits h ltac:(lia)) as [_ Hn].
  destruct (index NOUNS (rem (sar h 8) (length_of NOUNS))) as [noun|] eqn:En.
  - exists (nth (Z.to_nat (h mod 10)) ADJECTIVES []), noun, (rem h 900 + 100).
    assert (Hin : In noun NOUNS).
    { unfold index in En. destruct (_ <? 0); [discriminate|].
      eapply nth_error_In. exact En. }
    repeat split; auto; try lia.
    apply nth_In. change (length ADJECTIVES) with 10%nat.
    pose proof (Z.mod_pos_bound h 10). lia.
  - exists (nth (Z.to_nat (h mod 10)) ADJECTIVES []), (str "undefined"),
      (rem h 900 + 100).
    repeat split; auto; try lia.
    + apply nth_In. change (length ADJECTIVES) with 10%nat.
      pose proof (Z.mod_pos_bound h 10). lia.
    + intros Hlow. apply noun_undefined_iff in En; lia.
Qed.

Lemma generatePseudonym_shape_witness :
  exists adjective nounText number,
    generatePseudonym (Some (str "anon_abc123_xyz"))
    = adjective ++ nounText ++ str "-" ++ decimal number
    /\ In adjective ADJECTIVES
    /\ In nounText NOUNS.
Proof.
  destruct (generatePseudonym_shape (Some (str "anon_abc123_xyz")))
    as (adjective & nounText & number & Heq & Ha & _ & _ & Hlow).
  exists adjective, nounText, number.
  split; [exact Heq|]. split; [exact Ha|].
  apply Hlow. vm_compute. reflexivity.
Defined.

End PseudonymMore.

(** ** Relative times of the cards *)
Module CardsFacts.
Import Js Cards.

(** X3: for a valid date, with [diff] the milliseconds since it:
    below one minute (also for a date in the future) the text is
    "Just now"; below one hour it counts the whole minutes, from 1 to 59;
    below one day the whole hours, from 1 to 23; below seven days the whole
    days, from 1 to 6; from seven days on it is the rendering of the
    locale. *)
Theorem formatRelativeTime_cases (date now : Z) (localeText : jsstring) :
  (now - date < 60000 ->
   formatRelativeTime (Some date) now localeText = str "Just now")
  /\ (60000 <= now - date < 3600000 ->
      formatRelativeTime (Some date) now localeText
      = decimal ((now - date) / 60000) ++ str " min"
        ++ plural ((now - date) / 60000) ++ str " ago"
      /\ 1 <= (now - date) / 60000 <= 59)
  /\ (3600000 <= now - date < 86400000 ->
      formatRelativeTime (Some date) now localeText
      = decimal ((now - date) / 3600000) ++ str " hour"
        ++ plural ((now - date) / 3600000) ++ str " ago"
      /\ 1 <= (now - date) / 3600000 <= 23)
  /\ (86400000 <= now - date < 604800000 ->
      formatRelativeTime (Some date) now localeText
      = decimal ((now - date) / 86400000) ++ str " day"
        ++ plural ((now - date) / 86400000) ++ str " ago"
      /\ 1 <= (now - date) / 86400000 <= 6)
  /\ (604800000 <= now - date ->
      formatRelativeTime (Some date) now localeText = localeText).
Proof.
  unfold formatRelativeTime. set (d := now - date).
  assert (Hmin : d / 1000 / 60 = d / 60000)
    by (rewrite Z.div_div by lia; reflexivity).
  assert (Hhr : d / 1000 / 60 / 60 = d / 3600000)
    by (rewrite Hmin, Z.div_div by lia; reflexivity).
  assert (Hday : d / 1000 / 60 / 60 / 24 = d / 86400000)
    by (rewrite Hhr, Z.div_div by lia; reflexivity).
  cbv zeta. rewrite Hday, Hhr, Hmin.
  pose proof (Z.div_mod d 1000 ltac:(lia)) as E0.
  pose proof (Z.mod_pos_bound d 1000 ltac:(lia)) as B0.
  pose proof (Z.div_mod d 60000 ltac:(lia)) as E1.
  pose proof (Z.mod_pos_bound d 60000 ltac:(lia)) as B1.
  pose proof (Z.div_mod d 3600000 ltac:(lia)) as E2.
  pose proof (Z.mod_pos_bound d 3600000 ltac:(lia)) as B2.
  pose proof (Z.div_mod d 86400000 ltac:(lia)) as E3.
  pose proof (Z.mod_pos_bound d 86400000 ltac:(lia)) as B3.
  split; [|split; [|split; [|split]]]; intros H;
    repeat match goal with
           | |- context [?a <? ?b] => destruct (Z.ltb_spec a b); try lia
           end;
    try (split; [reflexivity|lia]); try reflexivity.
Qed.

Lemma formatRelativeTime_cases_witness :
  formatRelativeTime (Some 1000) 500 (str "1/1/1970") = str "Just now"
  /\ formatRelativeTime (Some 0) 60000 (str "1/1/1970") = str "1 min ago"
  /\ formatRelativeTime (Some 0) 7199999 (str "1/1/1970") = str "1 hour ago"
  /\ formatRelativeTime (Some 0) 604799999 (str "1/1/1970") = str "6 days ago"
  /\ formatRelativeTime (Some 0) 604800000 (str "1/1/1970") = str "1/1/1970".
Proof.
  split; [apply (proj1 (formatRelativeTime_cases 1000 500 (str "1/1/1970"))); lia|].
  split; [apply (proj1 (proj2 (formatRelativeTime_cases 0 60000 (str "1/1/1970")))
                   ltac:(lia))|].
  split; [apply (proj1 (proj2 (proj2 (formatRelativeTime_cases 0 7199999 (str "1/1/1970"))))
                   ltac:(lia))|].
  split; [apply (proj1 (proj2 (proj2 (proj2 (formatRelativeTime_cases 0 604799999 (str "1/1/1970")))))
                   ltac:(lia))|].
  apply (proj2 (proj2 (proj2 (proj2 (formatRelativeTime_cases 0 604800000 (str "1/1/1970")))))).
  lia.
Defined.

End CardsFacts.

(** ** The stored identifiers *)
Module SessionFacts.
Import Js Http Regex CommunityContext Session ForumMock Scenario.

Lemma startsWith_app (prefix rest : jsstring) :
  startsWith (prefix ++ rest) prefix = true.
Proof.
  induction prefix as [|c prefix IH]; simpl.
  - destruct rest; reflexivity.
  - rewrite N.eqb_refl. exact IH.
Qed.

Lemma generateAnonymousId_prefix (random36 : jsstring) (now : N) :
  startsWith (generateAnonymousId random36 now) (str "anon_") = true.
Proof.
  change (generateAnonymousId random36 now)
    with (str "anon_" ++ substring random36 2 10 ++ str "_" ++ toString36 now).
  apply startsWith_app.
Qed.

(** X4: in a browser the identifier is created once per session: whatever
    the storage held before, after one initialisation every further
    initialisation (a reload, with another random number and another time)
    returns the same identifier and leaves the storage as it is, and that
    storage holds the identifier. *)
Theorem initialAnonymousId_cached
        (storage : option jsstring) (random36 random36' : jsstring) (now now' : N) :
  let '(id, storage1) := initialAnonymousId true storage random36 now in
  storage1 = Some id
  /\ initialAnonymousId true storage1 random36' now' = (id, storage1).
Proof.
  unfold initialAnonymousId.
  destruct storage as [[|c stored]|]; split; reflexivity.
Qed.

(** Asking for a new identifier replaces the stored one: the next
    initialisation returns the new identifier, which is not taken from the
    storage but built from the random number and the time. *)
Theorem generateNewAnonymousId_replaces
        (storage : option jsstring) (random36 random36' : jsstring) (now now' : N) :
  let '(newId, storage1) := generateNewAnonymousId true storage random36 now in
  newId = generateAnonymousId random36 now
  /\ initialAnonymousId true storage1 random36' now' = (newId, Some newId).
Proof.
  unfold generateNewAnonymousId, initialAnonymousId.
  split; reflexivity.
Qed.

(** X5: the stored user id is created once: a storage without a (non-empty)
    entry receives the generated uuid, which is the id returned; a storage
    with an entry is left as it is and its entry is the id returned; either
    way the storage holds the id afterwards, and from then on the same id
    is returned whatever uuid would be generated. *)
Theorem storedUserId_cached (storage : option jsstring) (uuid uuid' : jsstring) :
  uuid <> [] ->
  let '(id, storage1) := storedUserId storage uuid in
  (storage = None \/ storage = Some [] -> id = uuid)
  /\ (forall c stored, storage = Some (c :: stored) ->
        id = c :: stored /\ storage1 = storage)
  /\ storage1 = Some id
  /\ id <> []
  /\ storedUserId storage1 uuid' = (id, storage1).
Proof.
  intros Hne. unfold storedUserId.
  destruct storage as [[|c stored]|].
  - destruct uuid as [|u uuid]; [congruence|].
    split; [reflexivity|]. split; [discriminate|]. repeat split. discriminate.
  - split; [intros [H|H]; discriminate|].
    split; [intros c' stored' H; injection H as <- <-; split; reflexivity|].
    repeat split. discriminate.
  - destruct uuid as [|u uuid]; [congruence|].
    split; [reflexivity|]. split; [discriminate|]. repeat split. discriminate.
Qed.

Lemma storedUserId_cached_witness :
  fst (storedUserId None (str "9a7b")) = str "9a7b"
  /\ snd (storedUserId None (str "9a7b")) = Some (str "9a7b")
  /\ storedUserId (Some (str "9a7b")) (str "0000")
     = (str "9a7b", Some (str "9a7b")).
Proof.
  pose proof (storedUserId_cached None (str "9a7b") (str "0000")
                ltac:(discriminate)) as H.
  cbv beta iota delta [storedUserId] in H.
  destruct H as (Hnew & _ & Hstored & _ & Hagain).
  split; [exact (Hnew (or_introl eq_refl))|]. split; [exact Hstored|exact Hagain].
Defined.

(** X6: an identifier made by [generateAnonymousId] always passes the check
    of the author id of the placeholder forum handler: a POST carrying it,
    with a content that is present and holds no email address, is answered
    201 with the fields echoed. *)
Theorem generated_id_is_accepted
        (now : Z) (random36 : jsstring) (time : N) (title content threadId : value) :
  truthy content = true ->
  test emailPattern (to_string content) = false ->
  handler now (post_request title content
                 (VStr (generateAnonymousId random36 time)) threadId)
  = Respond 201
      (Post {| c_id := decimal now; c_title := title; c_content := content;
               c_authorId := VStr (generateAnonymousId random36 time);
               c_threadId := threadId; c_createdAt := now |}).
Proof.
  intros Hc He. unfold handler, post_request. cbn [method body b_title b_content b_authorId b_threadId].
  change (jsstring_eqb (str "POST") (str "GET")) with false.
  change (jsstring_eqb (str "POST") (str "POST")) with true.
  cbv iota. rewrite Hc.
  change (truthy (VStr (generateAnonymousId random36 time))) with true.
  cbn [negb orb]. rewrite generateAnonymousId_prefix. cbn [negb].
  rewrite He. reflexivity.
Qed.

Lemma generated_id_is_accepted_witness :
  handler 5 (post_request (VStr (str "Hello")) (VStr (str "This is a test post"))
               (VStr (generateAnonymousId (str "0.k3j2h1g9xyz") 1700000000000))
               VUndefined)
  = Respond 201
      (Post {| c_id := decimal 5; c_title := VStr (str "Hello");
               c_content := VStr (str "This is a test post");
               c_authorId := VStr (generateAnonymousId (str "0.k3j2h1g9xyz") 1700000000000);
               c_threadId := VUndefined; c_createdAt := 5 |}).
Proof.
  apply generated_id_is_accepted; vm_compute; reflexivity.
Defined.

End SessionFacts.

(** ** The forum handler: the store across requests *)
Module ForumApiMore.
Import Js Http Regex Store ForumApi StoreInvariant Scenario ForumApiFacts.

Lemma has_thread_spec (db : Db) (id : jsstring) :
  has_thread db id = true <-> In id (map t_id (forum_threads db)).
Proof.
  unfold has_thread. rewrite existsb_exists, in_map_iff. split.
  - intros (t & Hin & Heq). apply bool_decide_eq_true in Heq. eauto.
  - intros (t & Heq & Hin). exists t. split; [exact Hin|].
    apply bool_decide_eq_true. exact Heq.
Qed.

Lemma has_post_spec (db : Db) (id : jsstring) :
  has_post db id = true <-> In id (map p_id (forum_posts db)).
Proof.
  unfold has_post. rewrite existsb_exists, in_map_iff. split.
  - intros (t & Hin & Heq). apply bool_decide_eq_true in Heq. eauto.
  - intros (t & Heq & Hin). exists t. split; [exact Hin|].
    apply bool_decide_eq_true. exact Heq.
Qed.

#[local] Instance created_asc_transitive : Transitive created_asc.
Proof. unfold created_asc. intros x y z. lia. Qed.

#[local] Instance created_asc_is_total : Total created_asc.
Proof. unfold created_asc. intros x y. lia. Qed.

#[local] Instance activity_desc_transitive : Transitive activity_desc.
Proof. unfold activity_desc. intros x y z. lia. Qed.

#[local] Instance activity_desc_is_total : Total activity_desc.
Proof. unfold activity_desc. intros x y. lia. Qed.

Lemma has_thread_false (db : Db) (id : jsstring) :
  has_thread db id = false -> ~ In id (map t_id (forum_threads db)).
Proof. intros H Hin. apply has_thread_spec in Hin. congruence. Qed.

(** The id of an accepted insert is new. *)
Lemma insert_thread_fresh (env : Env) (k : nat) (db db1 : Db)
      (title author_id : value) (thread : thread_row) :
  insert_thread env k db title author_id = (Ok thread, db1) ->
  has_thread db (t_id thread) = false.
Proof.
  unfold insert_thread. intros H.
  destruct (fails env k); [discriminate|].
  destruct (negb (not_null title && not_null author_id)); [discriminate|].
  destruct (has_thread db (uuid env k)) eqn:E; [discriminate|].
  injection H as <- _. exact E.
Qed.

Lemma insert_post_fresh (env : Env) (k : nat) (db db1 : Db)
      (thread_id content author_id : value) (post : post_row) :
  insert_post env k db thread_id content author_id = (Ok post, db1) ->
  has_post db (p_id post) = false.
Proof.
  unfold insert_post. intros H.
  destruct (fails env k); [discriminate|].
  destruct (negb (not_null thread_id && not_null content && not_null author_id));
    [discriminate|].
  destruct (has_thread db (to_string thread_id)); [|discriminate].
  destruct (has_post db (uuid env k)) eqn:E; [discriminate|].
  injection H as <- _. exact E.
Qed.

Lemma consistent_db_two : consistent db_two.
Proof.
  split; [|split].
  - refine (bool_decide_unpack _ _). vm_compute. exact I.
  - refine (bool_decide_unpack _ _). vm_compute. exact I.
  - repeat constructor.
Qed.

(** X8: a request that is turned down (400 or 405), and every GET (200),
    leaves the store exactly as it was. *)
Theorem handler_rejection_leaves_store
        (env : Env) (db db' : Db) (req : Request) (status : Z) (b : json) :
  handler env db req = (Respond status b, db') ->
  status = 400 \/ status = 405 \/ status = 200 ->
  db' = db.
Proof.
  unfold handler, handle_post. intros H Hst.
  destruct (jsstring_eqb (method req) (str "GET")); [congruence|].
  destruct (jsstring_eqb (method req) (str "POST")); [|congruence].
  destruct (negb (truthy (b_authorId (body req))) || negb (truthy (b_content (body req))));
    [congruence|].
  destruct (test emailPattern (to_string (b_content (body req)))); [congruence|].
  destruct (truthy (b_threadId (body req))).
  - destruct (insert_post env 0 db _ _ _) as [[data|m] db1] eqn:Ep.
    + destruct (update_last_activity env 1 db1 _ _) as [u db2].
      injection H as <- _ _. lia.
    + injection H as <- _ _. lia.
  - destruct (negb (truthy (b_title (body req)))); [congruence|].
    destruct (insert_thread env 0 db _ _) as [[thread|m] db1] eqn:Et.
    + destruct (insert_post env 1 db1 _ _ _) as [[post|m] db2] eqn:Ep;
        injection H as <- _ _; lia.
    + injection H as <- _ _. lia.
Qed.

Lemma handler_rejection_leaves_store_witness :
  snd (handler env_ok db_two
         (post_request VUndefined (VStr (str "mail me: test@example.com"))
            (VStr (str "anon_y")) (VStr (str "T"))))
  = db_two.
Proof.
  apply (handler_rejection_leaves_store env_ok db_two _
           (post_request VUndefined (VStr (str "mail me: test@example.com"))
              (VStr (str "anon_y")) (VStr (str "T")))
           400 (Error (str "Content cannot contain email addresses"))).
  - vm_compute. reflexivity.
  - left. reflexivity.
Defined.

(** X9: whatever the handler answers 201 for has added exactly one post,
    which carries the submitted content and author, and the content holds
    no email address. *)
Theorem handler_201_stores_checked_content
        (env : Env) (db db' : Db) (req : Request) (b : json) :
  handler env db req = (Respond 201 b, db') ->
  truthy (b_authorId (body req)) = true
  /\ truthy (b_content (body req)) = true
  /\ test emailPattern (to_string (b_content (body req))) = false
  /\ exists post,
       forum_posts db' = forum_posts db ++ [post]
       /\ p_content post = to_string (b_content (body req))
       /\ p_author_id post = to_string (b_authorId (body req)).
Proof.
  unfold handler, handle_post. intros H.
  destruct (jsstring_eqb (method req) (str "GET")).
  { unfold handle_get in H.
    destruct (param_truthy _).
    - destruct (select_thread _ _ _ _); [|discriminate].
      destruct (select_replies _ _ _ _); discriminate.
    - destruct (select_threads _ _ _ _ _) as [[ts c]|]; discriminate. }
  destruct (jsstring_eqb (method req) (str "POST")); [|discriminate].
  destruct (truthy (b_authorId (body req))); [|discriminate].
  destruct (truthy (b_content (body req))); [|discriminate].
  cbn [negb orb] in H.
  destruct (test emailPattern (to_string (b_content (body req)))); [discriminate|].
  repeat (split; [reflexivity|]).
  destruct (truthy (b_threadId (body req))).
  - destruct (insert_post env 0 db _ _ _) as [[data|m] db1] eqn:Ep; [|discriminate].
    apply insert_post_ok in Ep as (_ & _ & _ & Hc & Ha & _ & Hpo).
    pose proof (update_last_activity_unseen env 1 db1
                  (b_threadId (body req)) (now env)) as Hu.
    destruct (update_last_activity env 1 db1 _ _) as [u db2].
    cbn [snd] in Hu. subst db2. injection H as _ <-. eauto.
  - destruct (negb (truthy (b_title (body req)))); [discriminate|].
    destruct (insert_thread env 0 db _ _) as [[thread|m] db1] eqn:Et; [|discriminate].
    destruct (insert_post env 1 db1 _ _ _) as [[post|m] db2] eqn:Ep; [|discriminate].
    apply insert_thread_ok in Et as (_ & _ & _ & _ & _ & Htp).
    apply insert_post_ok in Ep as (_ & _ & _ & Hc & Ha & _ & Hpo).
    injection H as _ <-. exists post. rewrite Hpo, Htp. auto.
Qed.

Lemma handler_201_stores_checked_content_witness :
  test emailPattern (to_string (VStr (str "A sufficiently long reply text"))) = false.
Proof.
  refine (proj1 (proj2 (proj2
            (handler_201_stores_checked_content env_ok db_two _
               (post_request VUndefined (VStr (str "A sufficiently long reply text"))
                  (VStr (str "anon_y")) (VStr (str "T")))
               _ _)))).
  vm_compute. reflexivity.
Defined.

(** What a createThread answered 201 has done to the store. *)
Lemma createThread_created (env : Env) (db db' : Db)
      (title content authorId : value) (thread : thread_row) :
  createThread env db title content authorId = (Respond 201 (Thread thread), db') ->
  exists post,
    has_thread db (t_id thread) = false
    /\ forum_threads db' = forum_threads db ++ [thread]
    /\ forum_posts db' = forum_posts db ++ [post]
    /\ p_thread_id post = t_id thread
    /\ p_content post = to_string content
    /\ p_author_id post = to_string authorId.
Proof.
  rewrite createThread_unfold. unfold handle_post.
  cbn [b_title b_content b_authorId b_threadId truthy].
  destruct (negb (truthy authorId) || negb (truthy content)); [discriminate|].
  destruct (test emailPattern (to_string content)); [discriminate|].
  cbv iota.
  destruct (negb (truthy title)); [discriminate|].
  destruct (insert_thread env 0 db title authorId) as [[t|m] db1] eqn:Et;
    [|discriminate].
  destruct (insert_post env 1 db1 (VStr (t_id t)) content authorId)
    as [[post|m] db2] eqn:Ep; [|discriminate].
  intros H. injection H as <- <-.
  pose proof (insert_thread_fresh _ _ _ _ _ _ _ Et) as Hfresh.
  apply insert_thread_ok in Et as (_ & _ & _ & _ & Ht & Htp).
  apply insert_post_ok in Ep as (_ & _ & Hid & Hc & Ha & Hpt & Hpp).
  exists post. rewrite Hpt, Hpp, Ht, Htp. auto 10.
Qed.

Lemma filter_no_post (id : jsstring) (l : list post_row) :
  (forall p, In p l -> p_thread_id p <> id) ->
  filter (fun p => p_thread_id p = id) l = [].
Proof.
  induction l as [|x l IH]; intros Hno; [reflexivity|].
  rewrite filter_cons_False by (apply Hno; left; reflexivity).
  apply IH. intros p Hp. apply Hno. right. exact Hp.
Qed.

(** X10: a thread that was just created reads back: on a consistent store,
    after a createThread answered 201, getThread of the id of the new
    thread (the store answering) returns that thread with exactly one
    reply, the initial post with the submitted content. *)
Theorem createThread_then_getThread
        (env env' : Env) (db db' : Db) (title content authorId : value)
        (thread : thread_row) :
  consistent db ->
  createThread env db title content authorId = (Respond 201 (Thread thread), db') ->
  t_id thread <> [] ->
  fails env' 0 = false ->
  fails env' 1 = false ->
  exists post,
    getThread env' db' (t_id thread)
    = Respond 200 (ThreadWithReplies thread [post])
    /\ p_content post = to_string content
    /\ p_author_id post = to_string authorId.
Proof.
  intros (Ht & Hp & Hfk) Hcreate Hne Hf0 Hf1.
  apply createThread_created in Hcreate
    as (post & Hfresh & Hth & Hpo & Hid & Hc & Ha).
  exists post. split; [|auto].
  rewrite (getThread_unfold env' db' (t_id thread) Hne).
  unfold select_thread, select_replies. rewrite Hf0, Hf1, Hth, Hpo.
  rewrite !filter_app.
  rewrite (filter_no_thread (t_id thread) (forum_threads db)).
  2:{ intros t Hin Heq. apply (has_thread_false _ _ Hfresh).
      rewrite <- Heq. apply in_map. exact Hin. }
  rewrite (filter_no_post (t_id thread) (forum_posts db)).
  2:{ intros p Hin Heq.
      rewrite Forall_forall in Hfk.
      specialize (Hfk p (proj2 (list_elem_of_In _ _) Hin)). simpl in Hfk.
      rewrite Heq in Hfk. congruence. }
  rewrite (filter_cons_True _ thread) by reflexivity.
  rewrite (filter_cons_True _ post) by exact Hid.
  reflexivity.
Qed.

Lemma createThread_then_getThread_witness :
  exists post,
    getThread env_ok db_hello (t_id thread_hello)
    = Respond 200 (ThreadWithReplies thread_hello [post])
    /\ p_content post = to_string (VStr (str "This is a test post"))
    /\ p_author_id post = to_string (VStr (str "anon_x")).
Proof.
  apply (createThread_then_getThread env_ok env_ok db_empty db_hello
           (VStr (str "Hello")) (VStr (str "This is a test post"))
           (VStr (str "anon_x")) thread_hello).
  - split; [|split]; constructor.
  - vm_compute. reflexivity.
  - discriminate.
  - reflexivity.
  - reflexivity.
Defined.

(** What a createReply answered 201 tells about the request and the
    store. *)
Lemma createReply_facts (env : Env) (db db' : Db)
      (threadId content authorId : value) (post : post_row) :
  createReply env db threadId content authorId = (Respond 201 (Post post), db') ->
  truthy threadId = true
  /\ has_thread db (to_string threadId) = true
  /\ p_thread_id post = to_string threadId
  /\ forum_posts db' = forum_posts db ++ [post]
  /\ map t_id (forum_threads db') = map t_id (forum_threads db).
Proof.
  rewrite createReply_unfold. unfold handle_post.
  cbn [b_title b_content b_authorId b_threadId].
  destruct (negb (truthy authorId) || negb (truthy content)); [discriminate|].
  destruct (test emailPattern (to_string content)); [discriminate|].
  destruct (truthy threadId).
  - destruct (insert_post env 0 db threadId content authorId)
      as [[data|m] db1] eqn:Ep; [|discriminate].
    apply insert_post_ok in Ep as (_ & Hhas & Hid & _ & _ & Hth & Hpo).
    pose proof (update_last_activity_unseen env 1 db1 threadId (now env)) as Hu.
    destruct (update_last_activity env 1 db1 threadId (now env)) as [u db2].
    cbn [snd] in Hu. subst db2.
    intros H; injection H as <- <-. rewrite Hth. auto 10.
  - cbn [truthy negb]. discriminate.
Qed.

(** X11: a reply reads back: on a consistent store, after a createReply to
    the thread [tid] answered 201, getThread of [tid] (the store answering)
    returns a thread with that id whose replies are the replies it had
    before together with the new post, ordered by created_at ascending. *)
Theorem createReply_then_getThread
        (env env' : Env) (db db' : Db) (tid : jsstring) (content authorId : value)
        (post : post_row) :
  consistent db ->
  createReply env db (VStr tid) content authorId = (Respond 201 (Post post), db') ->
  fails env' 0 = false ->
  fails env' 1 = false ->
  exists thread replies,
    getThread env' db' tid = Respond 200 (ThreadWithReplies thread replies)
    /\ t_id thread = tid
    /\ Permutation replies (posts_of db tid ++ [post])
    /\ length replies = S (length (posts_of db tid))
    /\ Sorted created_asc replies.
Proof.
  intros Hc Hreply Hf0 Hf1.
  pose proof Hreply as Hfacts.
  apply createReply_facts in Hfacts as (Htruthy & Hhas & Hid & Hpo & Hids).
  cbn [to_string] in Hhas, Hid.
  assert (Hne : tid <> []).
  { intros ->. vm_compute in Htruthy. discriminate. }
  destruct Hc as (Ht & _ & _).
  assert (Hhas' : has_thread db' tid = true).
  { apply has_thread_spec. rewrite Hids. apply has_thread_spec. exact Hhas. }
  apply has_thread_In in Hhas' as (thread & Hin & Htid).
  assert (Hperm : Permutation
                    (merge_sort created_asc
                       (filter (fun p => p_thread_id p = tid) (forum_posts db')))
                    (posts_of db tid ++ [post])).
  { rewrite merge_sort_Permutation, Hpo, filter_app.
    rewrite (filter_cons_True _ post) by exact Hid. reflexivity. }
  assert (Hone : filter (fun t => t_id t = tid) (forum_threads db') = [thread]).
  { rewrite <- Htid. apply filter_one_thread; [|exact Hin].
    rewrite Hids. exact Ht. }
  exists thread, (merge_sort created_asc
                    (filter (fun p => p_thread_id p = tid) (forum_posts db'))).
  split; [|split; [exact Htid|split; [exact Hperm|split]]].
  - rewrite (getThread_unfold env' db' tid Hne).
    unfold select_thread, select_replies. rewrite Hf0, Hf1, Hone. reflexivity.
  - rewrite (Permutation_length Hperm), length_app. simpl. lia.
  - apply Sorted_merge_sort. apply _.
Qed.

Lemma createReply_then_getThread_witness :
  exists thread replies,
    getThread env_ok
      (snd (createReply env_ok db_two (VStr (str "T"))
              (VStr (str "A sufficiently long reply text")) (VStr (str "anon_y"))))
      (str "T")
    = Respond 200 (ThreadWithReplies thread replies)
    /\ t_id thread = str "T"
    /\ length replies = 2%nat.
Proof.
  destruct (createReply_then_getThread env_ok env_ok db_two
              (snd (createReply env_ok db_two (VStr (str "T"))
                      (VStr (str "A sufficiently long reply text"))
                      (VStr (str "anon_y"))))
              (str "T") (VStr (str "A sufficiently long reply text"))
              (VStr (str "anon_y"))
              {| p_id := str "id-0"; p_thread_id := str "T";
                 p_content := str "A sufficiently long reply text";
                 p_author_id := str "anon_y"; p_created_at := 1000 |})
    as (thread & replies & Hget & Hid & _ & Hlen & _).
  - exact consistent_db_two.
  - vm_compute. reflexivity.
  - reflexivity.
  - reflexivity.
  - exists thread, replies. split; [exact Hget|]. split; [exact Hid|exact Hlen].
Defined.

(** X12: a reply to a thread id that no stored thread has is never stored:
    with author and content present and no email address in the content,
    the answer is 500 and the store is as before. *)
Theorem createReply_unknown_thread
        (env : Env) (db : Db) (threadId content authorId : value) :
  truthy threadId = true ->
  truthy content = true ->
  truthy authorId = true ->
  test emailPattern (to_string content) = false ->
  has_thread db (to_string threadId) = false ->
  exists message,
    createReply env db threadId content authorId
    = (Respond 500 (Error message), db).
Proof.
  intros Ht Hc Ha He Hno.
  rewrite createReply_unfold. unfold handle_post.
  cbn [b_title b_content b_authorId b_threadId].
  rewrite Ht, Hc, Ha, He. cbn [negb orb]. cbv iota.
  unfold insert_post. rewrite Hno.
  destruct (fails env 0); [eauto|].
  destruct (negb (not_null threadId && not_null content && not_null authorId));
    eauto.
Qed.

Lemma createReply_unknown_thread_witness :
  exists message,
    createReply env_ok db_two (VStr (str "Z"))
      (VStr (str "A sufficiently long reply text")) (VStr (str "anon_y"))
    = (Respond 500 (Error message), db_two).
Proof.
  apply createReply_unknown_thread; vm_compute; reflexivity.
Defined.

(** X13: a page of listThreads is a segment of the table ordered by
    last_activity descending: for a positive page [p] and size [n] whose
    product is below 2^53 and a page that is the first or starts at an
    offset below the number of threads, the store answering, it holds the
    rows at the offsets (p-1)*n .. p*n-1 of the ordered table that exist:
    the smaller of [n] and count - (p-1)*n rows, all of them stored
    threads. *)
Theorem listThreads_page_segment
        (env : Env) (db : Db) (page limit : jsstring) (p n : Z) :
  parseInt page = Finite p ->
  parseInt limit = Finite n ->
  1 <= p -> 1 <= n ->
  p * n < 2 ^ 53 ->
  p = 1 \/ (p - 1) * n < length_of (forum_threads db) ->
  fails env 0 = false ->
  exists threads ordered tp,
    listThreads env db (Some page) (Some limit)
    = Respond 200 (ThreadList threads (Some p) tp)
    /\ Permutation ordered (forum_threads db)
    /\ StronglySorted activity_desc ordered
    /\ threads = take (Z.to_nat n) (drop (Z.to_nat ((p - 1) * n)) ordered)
    /\ length threads
       = Nat.min (Z.to_nat n)
           (length (forum_threads db) - Z.to_nat ((p - 1) * n))
    /\ (forall t, In t threads -> In t (forum_threads db)).
Proof.
  intros Hpage Hlimit Hp Hn Hb Hstart Hf.
  assert (Hoff : (p - 1) * n <= length_of (forum_threads db))
    by (unfold length_of in *; destruct Hstart as [->|Hlt]; lia).
  rewrite listThreads_unfold. cbv zeta. cbn [from_option]. unfold id.
  rewrite Hpage, Hlimit.
  destruct (page_range p n Hp Hn Hb) as [-> ->].
  rewrite select_threads_page by assumption.
  pose proof (merge_sort_Permutation activity_desc (forum_threads db)) as Hperm.
  eexists _, (merge_sort activity_desc (forum_threads db)), _.
  split; [reflexivity|]. split; [exact Hperm|]. split.
  { apply StronglySorted_merge_sort; apply _. }
  split; [reflexivity|]. split.
  - rewrite length_take, length_drop, (Permutation_length Hperm). reflexivity.
  - intros t Hin. apply list_elem_of_In in Hin.
    apply list_elem_of_In. rewrite <- Hperm.
    apply (subseteq_drop (Z.to_nat ((p - 1) * n))).
    apply (subseteq_take (Z.to_nat n)). exact Hin.
Qed.

Lemma listThreads_page_segment_witness :
  exists threads ordered tp,
    listThreads env_ok db_two (Some (str "2")) (Some (str "1"))
    = Respond 200 (ThreadList threads (Some 2) tp)
    /\ Permutation ordered (forum_threads db_two)
    /\ StronglySorted activity_desc ordered
    /\ threads = take (Z.to_nat 1) (drop (Z.to_nat ((2 - 1) * 1)) ordered)
    /\ length threads
       = Nat.min (Z.to_nat 1)
           (length (forum_threads db_two) - Z.to_nat ((2 - 1) * 1))
    /\ (forall t, In t threads -> In t (forum_threads db_two)).
Proof.
  apply (listThreads_page_segment env_ok db_two (str "2") (str "1") 2 1);
    (reflexivity || lia || (right; vm_compute; reflexivity)).
Defined.

End ForumApiMore.

(** ** The patterns in the checks *)
Module PatternFacts.
Import Js Http Regex RegexSemantics RegexFacts Store ForumApi Pages ReplyForm.
Import StoreInvariant ForumApiFacts.

(** The rest of the input after a match is a suffix of the input. *)
Lemma Matches_suffix r prev s prev' s' :
  Matches r prev s prev' s' -> exists mid, s = mid ++ s'.
Proof.
  induction 1 as [p prev c s Hp
                 |r1 r2 prev s prev1 s1 prev2 s2 H1 IH1 H2 IH2
                 |r prev s prev' s' H IH
                 |r prev s
                 |r prev s
                 |r prev s prev1 s1 prev2 s2 H1 IH1 H2 IH2
                 |prev s Hb].
  - exists [c]. reflexivity.
  - destruct IH1 as [m1 ->]. destruct IH2 as [m2 ->].
    exists (m1 ++ m2). rewrite <- app_assoc. reflexivity.
  - exact IH.
  - exists []. reflexivity.
  - exists []. reflexivity.
  - destruct IH1 as [m1 ->]. destruct IH2 as [m2 ->].
    exists (m1 ++ m2). rewrite <- app_assoc. reflexivity.
  - exists []. reflexivity.
Qed.

Lemma one_of_at (c : N) : one_of "@" c = true -> c = 64%N.
Proof.
  unfold one_of. change (str "@") with [64%N]. simpl.
  rewrite orb_false_r. apply N.eqb_eq.
Qed.

(** A text that the email pattern finds holds the character "@". *)
Lemma emailPattern_needs_at (s : jsstring) :
  test emailPattern s = true -> In 64%N s.
Proof.
  intros H. apply test_spec in H as (pre & post & p' & s' & -> & H).
  apply in_or_app. right.
  unfold emailPattern in H. cbn [seq] in H.
  inversion H as [| ? ? ? ? p1 s1 ? ? Hwb Hrest | | | | |]; subst.
  inversion Hwb; subst.
  inversion Hrest as [| ? ? ? ? p2 s2 ? ? Hlocal Hrest2 | | | | |]; subst.
  inversion Hrest2 as [| ? ? ? ? p3 s3 ? ? Hat _ | | | | |]; subst.
  inversion Hat as [? ? c ? Hc | | | | | |]; subst.
  apply one_of_at in Hc. subst c.
  apply Matches_suffix in Hlocal as [mid ->].
  apply in_or_app. right. left. reflexivity.
Qed.

(** X14: the handler turns a request down for an email address only when
    the content holds the character "@": for any other content, a 400
    answer is one of the two answers about missing fields. *)
Theorem handle_post_no_at_no_email_rejection
        (env : Env) (db db' : Db) (b : Body) (message : jsstring) :
  ~ In 64%N (to_string (b_content b)) ->
  handle_post env db b = (Respond 400 (Error message), db') ->
  message = str "Missing required fields"
  \/ message = str "Title is required for new threads".
Proof.
  intros Hno. unfold handle_post.
  destruct (negb (truthy (b_authorId b)) || negb (truthy (b_content b))).
  { intros H. injection H as <- _. left. reflexivity. }
  destruct (test emailPattern (to_string (b_content b))) eqn:E.
  { apply emailPattern_needs_at in E. contradiction. }
  destruct (truthy (b_threadId b)).
  - destruct (insert_post env 0 db _ _ _) as [[data|m] db1].
    + destruct (update_last_activity env 1 db1 _ _). discriminate.
    + discriminate.
  - destruct (negb (truthy (b_title b))).
    { intros H. injection H as <- _. right. reflexivity. }
    destruct (insert_thread env 0 db _ _) as [[thread|m] db1]; [|discriminate].
    destruct (insert_post env 1 db1 _ _ _) as [[post|m] db2]; discriminate.
Qed.

Lemma handle_post_no_at_no_email_rejection_witness :
  str "Title is required for new threads" = str "Missing required fields"
  \/ str "Title is required for new threads" = str "Title is required for new threads".
Proof.
  apply (handle_post_no_at_no_email_rejection Scenario.env_ok Scenario.db_empty
           Scenario.db_empty
           {| b_title := VUndefined; b_content := VStr (str "This is a test post");
              b_authorId := VStr (str "anon_x"); b_threadId := VUndefined |}).
  - vm_compute. intros H.
    repeat (destruct H as [H|H]; [discriminate|]). exact H.
  - vm_compute. reflexivity.
Defined.

Lemma digit_is_word (c : N) : digit c = true -> word_char c = true.
Proof.
  intros H. unfold word_char, union. simpl existsb.
  unfold digit in H. rewrite H. rewrite !orb_true_r. reflexivity.
Qed.

Lemma is_separator (sp : jsstring) :
  sp = [] \/ sp = str "-" \/ sp = str "." ->
  forall prev rest,
    exists prev',
      Matches (Opt (Class (one_of "-."))) prev (sp ++ rest) prev' rest
      /\ (sp = [] -> prev' = prev).
Proof.
  intros [-> | [-> | ->]] prev rest.
  - exists prev. split; [apply MOptNone|reflexivity].
  - exists (Some 45%N). split; [|discriminate].
    apply MOptSome. apply (MClass _ prev 45%N rest). reflexivity.
  - exists (Some 46%N). split; [|discriminate].
    apply MOptSome. apply (MClass _ prev 46%N rest). reflexivity.
Qed.

(** A phone number in a text: three digits, three digits and four digits,
    each group optionally followed by "-" or ".", not touching a word
    character on either side.  The phone pattern finds it. *)
Lemma phonePattern_finds (pre a sp1 b sp2 c post : jsstring) :
  Forall (fun u => digit u = true) a -> length a = 3%nat ->
  Forall (fun u => digit u = true) b -> length b = 3%nat ->
  Forall (fun u => digit u = true) c -> length c = 4%nat ->
  sp1 = [] \/ sp1 = str "-" \/ sp1 = str "." ->
  sp2 = [] \/ sp2 = str "-" \/ sp2 = str "." ->
  is_word (before None pre) = false ->
  is_word (head post) = false ->
  test phonePattern (pre ++ a ++ sp1 ++ b ++ sp2 ++ c ++ post) = true.
Proof.
  intros Ha La Hb Lb Hc Lc Hs1 Hs2 Hpre Hpost.
  destruct a as [|a1 [|a2 [|a3 [|]]]]; try discriminate.
  destruct b as [|b1 [|b2 [|b3 [|]]]]; try discriminate.
  destruct c as [|c1 [|c2 [|c3 [|c4 [|]]]]]; try discriminate.
  repeat match goal with
         | H : Forall _ (_ :: _) |- _ => apply Forall_cons in H as [? H]
         end.
  apply test_spec.
  exists pre, ([a1; a2; a3] ++ sp1 ++ [b1; b2; b3] ++ sp2 ++ [c1; c2; c3; c4] ++ post).
  destruct (is_separator sp1 Hs1 (Some a3)
              ([b1; b2; b3] ++ sp2 ++ [c1; c2; c3; c4] ++ post))
    as (q1 & Hm1 & _).
  destruct (is_separator sp2 Hs2 (Some b3) ([c1; c2; c3; c4] ++ post))
    as (q2 & Hm2 & _).
  exists (Some c4), post. split; [reflexivity|].
  unfold phonePattern. cbn [seq Times].
  eapply MSeq.
  { apply MWordBoundary. unfold at_boundary. rewrite Hpre. simpl.
    apply digit_is_word. assumption. }
  eapply MSeq.
  { eapply MSeq; [apply MClass; assumption|].
    eapply MSeq; apply MClass; assumption. }
  eapply MSeq; [exact Hm1|].
  eapply MSeq.
  { eapply MSeq; [apply MClass; assumption|].
    eapply MSeq; apply MClass; assumption. }
  eapply MSeq; [exact Hm2|].
  eapply MSeq.
  { eapply MSeq; [apply MClass; assumption|].
    eapply MSeq; [apply MClass; assumption|].
    eapply MSeq; apply MClass; assumption. }
  apply MWordBoundary. unfold at_boundary. rewrite Hpost.
  simpl. rewrite (digit_is_word c4) by assumption. reflexivity.
Qed.

(** X15: the forms never let such a phone number through: a reply, a title
    or a content that holds one is turned down before any request is
    sent. *)
Theorem forms_stop_phone_numbers
        (pre a sp1 b sp2 c post other : jsstring) :
  Forall (fun u => digit u = true) a -> length a = 3%nat ->
  Forall (fun u => digit u = true) b -> length b = 3%nat ->
  Forall (fun u => digit u = true) c -> length c = 4%nat ->
  sp1 = [] \/ sp1 = str "-" \/ sp1 = str "." ->
  sp2 = [] \/ sp2 = str "-" \/ sp2 = str "." ->
  is_word (before None pre) = false ->
  is_word (head post) = false ->
  checkReply (pre ++ a ++ sp1 ++ b ++ sp2 ++ c ++ post) <> None
  /\ checkNewThread other (pre ++ a ++ sp1 ++ b ++ sp2 ++ c ++ post) <> None
  /\ checkNewThread (pre ++ a ++ sp1 ++ b ++ sp2 ++ c ++ post) other <> None.
Proof.
  intros Ha La Hb Lb Hc Lc Hs1 Hs2 Hpre Hpost.
  pose proof (phonePattern_finds pre a sp1 b sp2 c post
                Ha La Hb Lb Hc Lc Hs1 Hs2 Hpre Hpost) as Hfound.
  unfold checkReply, checkNewThread. rewrite Hfound.
  repeat split.
  - destruct (_ || _); [discriminate|]. rewrite orb_true_r. discriminate.
  - destruct (_ || _); [discriminate|].
    destruct (_ || _); [discriminate|].
    destruct (_ || _); [discriminate|].
    rewrite orb_true_r. discriminate.
  - destruct (_ || _); [discriminate|].
    destruct (_ || _); [discriminate|].
    destruct (_ || _); [discriminate|].
    discriminate.
Qed.

Lemma forms_stop_phone_numbers_witness :
  checkReply (str "please call " ++ str "555" ++ str "-" ++ str "123" ++ str "-"
              ++ str "4567" ++ str " tonight") <> None.
Proof.
  apply (proj1 (forms_stop_phone_numbers (str "please call ") (str "555") (str "-")
                  (str "123") (str "-") (str "4567") (str " tonight") []
                  ltac:(repeat constructor) eq_refl
                  ltac:(repeat constructor) eq_refl
                  ltac:(repeat constructor) eq_refl
                  ltac:(right; left; reflexivity)
                  ltac:(right; left; reflexivity)
                  eq_refl eq_refl)).
Defined.

(** *** What the forms accept, the handler does not turn down *)















End PatternFacts.

(** ** The SOS handler *)
Module SosFacts.
Import Js Http Sos.






(** X18: a location just outside the range is turned down whatever else
    the request holds: a latitude above 90 or below -90, or a longitude
    above 180 or below -180, gives 400 "Invalid location data" on a POST
    with a timestamp. *)
Theorem sos_handler_out_of_range
        (now : Z) (ts ua : value) (latitude longitude : Q) :
  truthy ts = true ->
  (90 # 1 < latitude)%Q \/ (latitude < - (90 # 1))%Q
  \/ (180 # 1 < longitude)%Q \/ (longitude < - (180 # 1))%Q ->
  handler now (str "POST")
    {| timestamp := ts;
       loc := Coordinates (Number latitude) (Number longitude);
       userAgent := ua |}
  = (400, Error (str "Invalid location data")).
Proof.
  intros Ht Hout. unfold handler.
  change (jsstring_eqb (str "POST") (str "POST")) with true.
  cbn [negb timestamp loc]. rewrite Ht. cbn [negb].
  assert (El : invalid_location (Coordinates (Number latitude) (Number longitude)) = true).
  { simpl.
    destruct (Qle_bool (- (90 # 1)) latitude) eqn:E1;
      destruct (Qle_bool latitude (90 # 1)) eqn:E2;
      destruct (Qle_bool (- (180 # 1)) longitude) eqn:E3;
      destruct (Qle_bool longitude (180 # 1)) eqn:E4; try reflexivity.
    exfalso. apply Qle_bool_iff in E1, E2, E3, E4.
    destruct Hout as [H|[H|[H|H]]];
      eapply Qlt_not_le; eassumption. }
  rewrite El. reflexivity.
Qed.

Lemma sos_handler_out_of_range_witness :
  handler 7 (str "POST")
    {| timestamp := VStr (str "2024-01-01T00:00:00.000Z");
       loc := Coordinates (Number (901 # 10)) (Number (0 # 1));
       userAgent := VNull |}
  = (400, Error (str "Invalid location data")).
Proof.
  apply sos_handler_out_of_range; [reflexivity|].
  left. reflexivity.
Defined.

End SosFacts.

(** ** The guards of the chat proxy *)
Module ChatFacts.
Import Js Http Regex RegexSemantics RegexFacts Chat PatternFacts.

Lemma lit_i_matches (s : string) :
  s <> EmptyString ->
  forall w prev rest,
    same_letters w s ->
    exists prev', Matches (lit_i s) prev (w ++ rest) prev' rest.
Proof.
  unfold same_letters, lit_i.
  induction s as [|a s IH]; intros Hne w prev rest Hw; [congruence|].
  simpl in Hw. inversion Hw as [|c a' w' l' Hc Hw' E1 E2]; subst.
  destruct s as [|a2 s].
  - inversion Hw'; subst. simpl. exists (Some c). apply MClass. exact Hc.
  - destruct (IH ltac:(discriminate) w' (Some c) rest Hw') as (q & Hm).
    exists q. change (list_ascii_of_string (String a (String a2 s)))
      with (a :: list_ascii_of_string (String a2 s)).
    cbn [map seq].
    simpl in Hm. simpl.
    eapply MSeq; [apply MClass; exact Hc|exact Hm].
Qed.

Lemma sep_matches (sp : jsstring) :
  sp = [] \/ sp = str "_" \/ sp = str "-" ->
  forall prev rest, exists prev', Matches sep prev (sp ++ rest) prev' rest.
Proof.
  intros [-> | [-> | ->]] prev rest.
  - exists prev. apply MOptNone.
  - exists (Some 95%N). apply MOptSome. apply (MClass _ prev 95%N rest). reflexivity.
  - exists (Some 45%N). apply MOptSome. apply (MClass _ prev 45%N rest). reflexivity.
Qed.

(** The first pattern finds "api key" written in any case, with "_", "-"
    or nothing between the two words, anywhere in a message. *)
Lemma api_key_found (pre w1 sp w2 post : jsstring) :
  same_letters w1 "api" ->
  sp = [] \/ sp = str "_" \/ sp = str "-" ->
  same_letters w2 "key" ->
  existsb (fun pattern => test pattern (pre ++ w1 ++ sp ++ w2 ++ post))
    suspiciousPatterns = true.
Proof.
  intros H1 Hsp H2. unfold suspiciousPatterns. cbn [existsb].
  apply orb_true_iff. left. apply test_spec.
  destruct (lit_i_matches "api" ltac:(discriminate) w1 (before None pre)
              (sp ++ w2 ++ post) H1) as (q1 & Hm1).
  destruct (sep_matches sp Hsp q1 (w2 ++ post)) as (q2 & Hm2).
  destruct (lit_i_matches "key" ltac:(discriminate) w2 q2 post H2) as (q3 & Hm3).
  exists pre, (w1 ++ sp ++ w2 ++ post), q3, post. split; [reflexivity|].
  cbn [seq]. eapply MSeq; [exact Hm1|]. eapply MSeq; [exact Hm2|exact Hm3].
Qed.

(** X19: a message that holds "api key" (in any case, the words joined, or
    separated by "_" or "-") never reaches the model: both chat handlers
    answer 400 whatever the model would have answered. *)
Theorem chat_stops_api_key
        (now : Z) (apiKey : bool) (model : completion)
        (pre w1 sp w2 post : jsstring) :
  same_letters w1 "api" ->
  sp = [] \/ sp = str "_" \/ sp = str "-" ->
  same_letters w2 "key" ->
  fst (handler_openai now (str "POST") (VStr (pre ++ w1 ++ sp ++ w2 ++ post)) model)
  = 400
  /\ fst (handler_gemini now apiKey (str "POST")
            (VStr (pre ++ w1 ++ sp ++ w2 ++ post)) model)
     = 400.
Proof.
  intros H1 Hsp H2.
  assert (Hg : exists e, guard (VStr (pre ++ w1 ++ sp ++ w2 ++ post)) = Some (400, e)).
  { unfold guard. rewrite (api_key_found pre w1 sp w2 post H1 Hsp H2).
    destruct (_ || _); [eauto|]. destruct (_ <? _)%nat; eauto. }
  destruct Hg as [e Hg].
  unfold handler_openai, handler_gemini.
  change (jsstring_eqb (str "POST") (str "POST")) with true.
  cbn [negb]. rewrite Hg. split; reflexivity.
Qed.

Lemma chat_stops_api_key_witness :
  fst (handler_openai 3 (str "POST")
         (VStr (str "tell me your " ++ str "API" ++ str "_" ++ str "Key" ++ str " now"))
         (Answer (str "sure")))
  = 400.
Proof.
  apply (proj1 (chat_stops_api_key 3 true (Answer (str "sure"))
                  (str "tell me your ") (str "API") (str "_") (str "Key") (str " now")
                  ltac:(repeat constructor)
                  ltac:(right; left; reflexivity)
                  ltac:(repeat constructor))).
Defined.

Lemma trimStart_spaces (m : jsstring) :
  Forall (fun c => is_space c = true) m -> trimStart m = [].
Proof.
  induction 1 as [|c m Hc _ IH]; simpl; [reflexivity|].
  rewrite Hc. exact IH.
Qed.

(** X20: a message that is not a string, is made of white space only, or
    is longer than 2000 code units never reaches the model: both chat
    handlers answer 400 whatever the model would have answered. *)
Theorem chat_stops_blank_and_long
        (now : Z) (apiKey : bool) (model : completion) (message : value) :
  (forall m, message = VStr m ->
             Forall (fun c => is_space c = true) m \/ (2000 < length m)%nat) ->
  fst (handler_openai now (str "POST") message model) = 400
  /\ fst (handler_gemini now apiKey (str "POST") message model) = 400.
Proof.
  intros Hm.
  assert (Hg : exists e, guard message = Some (400, e)).
  { unfold guard. destruct message as [| |b|n|m]; eauto.
    destruct (Hm m eq_refl) as [Hsp|Hlong].
    - unfold trim. rewrite (trimStart_spaces m Hsp). simpl.
      rewrite orb_true_r. eauto.
    - destruct (_ || _); [eauto|].
      apply Nat.ltb_lt in Hlong. rewrite Hlong. eauto. }
  destruct Hg as [e Hg].
  unfold handler_openai, handler_gemini.
  change (jsstring_eqb (str "POST") (str "POST")) with true.
  cbn [negb]. rewrite Hg. split; reflexivity.
Qed.

Lemma chat_stops_blank_and_long_witness :
  fst (handler_gemini 3 true (str "POST") (VStr (str "   ")) (Answer (str "hello")))
  = 400.
Proof.
  refine (proj2 (chat_stops_blank_and_long 3 true (Answer (str "hello"))
                   (VStr (str "   ")) _)).
  intros m Hm. injection Hm as <-. left. repeat constructor.
Defined.

End ChatFacts.

(** ** The journal handler *)
Module JournalFacts.
Import Js Http Journal.

Lemma handler_put_plan (env : Env) (db : Db) (user plan : option jsstring) :
  handler env db (put_plan user plan)
  = match upsert_plan env 0 db (or_else user default_user) plan
            (str "mock_iv") (now env) with
    | (Err e, db1) => (500, Error (message e), db1)
    | (Ok data, db1) => (200, PlanStored (s_updated_at data), db1)
    end.
Proof. reflexivity. Qed.

Lemma handler_get_plan (env : Env) (db : Db) (user : option jsstring) :
  handler env db (get_plan user)
  = match select_plan env 0 db (or_else user default_user) with
    | Err e =>
        if negb (jsstring_eqb (code e) (str "PGRST116")) then
          (500, Error (message e), db)
        else (200, SafetyPlan None, db)
    | Ok data => (200, SafetyPlan (Some (s_ciphertext data)), db)
    end.
Proof. reflexivity. Qed.

Lemma handler_post_entry (env : Env) (db : Db) (user : option jsstring)
      (content : value) :
  handler env db (post_entry user content)
  = if negb (truthy content) then
      (400, Error (str "Journal content is required"), db)
    else
      match insert_entry env 0 db (or_else user default_user) content
              (str "mock_iv") with
      | (Err e, db1) => (500, Error (message e), db1)
      | (Ok data, db1) => (201, Stored (e_id data) (e_created_at data), db1)
      end.
Proof. reflexivity. Qed.

Lemma handler_get_entries (env : Env) (db : Db) (user : option jsstring) :
  handler env db (get_entries user)
  = match select_entries env 0 db (or_else user default_user) with
    | Err e => (500, Error (message e), db)
    | Ok data => (200, Entries data, db)
    end.
Proof. reflexivity. Qed.

Lemma filter_plans_replaced (u : jsstring) (row : plan_row) (l : list plan_row) :
  s_user_id row = u ->
  filter (fun r => s_user_id r = u)
    (filter (fun r => s_user_id r <> u) l ++ [row]) = [row].
Proof.
  intros Hu. rewrite filter_app.
  rewrite (filter_cons_True _ row) by exact Hu.
  replace (filter (fun r => s_user_id r = u) (filter (fun r => s_user_id r <> u) l))
    with (@nil plan_row); [reflexivity|].
  induction l as [|x l IH]; [reflexivity|].
  destruct (decide (s_user_id x = u)) as [Heq|Hne].
  - rewrite (filter_cons_False (fun r => s_user_id r <> u)) by tauto. exact IH.
  - rewrite (filter_cons_True (fun r => s_user_id r <> u)) by exact Hne.
    rewrite filter_cons_False by exact Hne. exact IH.
Qed.

Lemma filter_plans_other (u o : jsstring) (row : plan_row) (l : list plan_row) :
  s_user_id row = u -> o <> u ->
  filter (fun r => s_user_id r = o)
    (filter (fun r => s_user_id r <> u) l ++ [row])
  = filter (fun r => s_user_id r = o) l.
Proof.
  intros Hu Hne. rewrite filter_app.
  rewrite (filter_cons_False _ row) by congruence.
  simpl. rewrite app_nil_r.
  induction l as [|x l IH]; [reflexivity|].
  destruct (decide (s_user_id x = u)) as [Heq|Hxu].
  - rewrite (filter_cons_False (fun r => s_user_id r <> u)) by tauto.
    rewrite (filter_cons_False (fun r => s_user_id r = o)) by congruence.
    exact IH.
  - rewrite (filter_cons_True (fun r => s_user_id r <> u)) by exact Hxu.
    destruct (decide (s_user_id x = o)) as [Hxo|Hxo].
    + rewrite !filter_cons_True by exact Hxo. f_equal. exact IH.
    + rewrite !filter_cons_False by exact Hxo. exact IH.
Qed.

(** X21: a safety plan reads back: after a PUT of a plan (the store
    answering and reading the user id as a uuid) the answer is 200, a GET
    of the safety plan of the same user returns that plan, whatever was
    stored for the user before, and the answer to a GET of any other user
    is what it was before the PUT. *)
Theorem safety_plan_round_trip
        (env env' : Env) (db : Db) (user other : option jsstring) (plan : jsstring) :
  fails env 0 = false ->
  is_uuid env (or_else user default_user) = true ->
  fails env' 0 = false ->
  is_uuid env' (or_else user default_user) = true ->
  or_else other default_user <> or_else user default_user ->
  let '(status, _, db1) := handler env db (put_plan user (Some plan)) in
  status = 200
  /\ handler env' db1 (get_plan user) = (200, SafetyPlan (Some plan), db1)
  /\ fst (handler env' db1 (get_plan other)) = fst (handler env' db (get_plan other)).
Proof.
  intros Hf Hu Hf' Hu' Hother.
  rewrite handler_put_plan. unfold upsert_plan. rewrite Hf, Hu. cbn [negb].
  split; [reflexivity|]. split.
  - rewrite handler_get_plan. unfold select_plan. rewrite Hf', Hu'. cbn [negb].
    cbn [safety_plans]. rewrite filter_plans_replaced by reflexivity.
    reflexivity.
  - rewrite !handler_get_plan. unfold select_plan.
    destruct (fails env' 0); [reflexivity|].
    destruct (negb (is_uuid env' (or_else other default_user))); [reflexivity|].
    cbn [safety_plans].
    rewrite filter_plans_other by (reflexivity || exact Hother).
    destruct (filter _ (safety_plans db)) as [|r [|r2 l]]; reflexivity.
Qed.

Lemma safety_plan_round_trip_witness :
  handler env_ok
    (snd (handler env_ok db_empty (put_plan (Some (str "u1")) (Some (str "{}")))))
    (get_plan (Some (str "u1")))
  = (200, SafetyPlan (Some (str "{}")),
     snd (handler env_ok db_empty (put_plan (Some (str "u1")) (Some (str "{}"))))).
Proof.
  pose proof (safety_plan_round_trip env_ok env_ok db_empty (Some (str "u1")) None
                (str "{}") eq_refl eq_refl eq_refl eq_refl ltac:(discriminate)) as H.
  exact (proj1 (proj2 H)).
Defined.

(** X22: reading the safety plan of a user who has none is not an error:
    the store's "no row" answer of [single()] is tolerated and the handler
    answers 200 with a null plan, leaving the store as it is. *)
Theorem safety_plan_missing_is_null (env : Env) (db : Db) (user : option jsstring) :
  fails env 0 = false ->
  is_uuid env (or_else user default_user) = true ->
  (forall r, In r (safety_plans db) -> s_user_id r <> or_else user default_user) ->
  handler env db (get_plan user) = (200, SafetyPlan None, db).
Proof.
  intros Hf Hu Hnone. rewrite handler_get_plan. unfold select_plan.
  rewrite Hf, Hu. cbn [negb].
  replace (filter (fun r => s_user_id r = or_else user default_user) (safety_plans db))
    with (@nil plan_row); [reflexivity|].
  symmetry. induction (safety_plans db) as [|x l IH]; [reflexivity|].
  rewrite filter_cons_False by (apply Hnone; left; reflexivity).
  apply IH. intros r Hr. apply Hnone. right. exact Hr.
Qed.

Lemma safety_plan_missing_is_null_witness :
  handler env_ok db_empty (get_plan None) = (200, SafetyPlan None, db_empty).
Proof.
  apply safety_plan_missing_is_null; [reflexivity|reflexivity|].
  intros r [].
Defined.

#[local] Instance newest_first_total : Total newest_first.
Proof. unfold newest_first. intros x y. lia. Qed.

(** X23: journal entries are kept per user: after a POST answered 201, a
    GET of the entries of the same user (the store answering) returns the
    entries the user had before together with the new one, which carries
    the posted content, ordered newest first and all of that user; the
    entries returned to any other user are what they were before. *)
Theorem journal_entry_round_trip
        (env env' : Env) (db db1 : Db) (user other : option jsstring)
        (content : value) (id : jsstring) (createdAt : Z) :
  handler env db (post_entry user content) = (201, Stored id createdAt, db1) ->
  fails env' 0 = false ->
  is_uuid env' (or_else user default_user) = true ->
  or_else other default_user <> or_else user default_user ->
  (exists entries entry,
      handler env' db1 (get_entries user) = (200, Entries entries, db1)
      /\ e_id entry = id
      /\ e_ciphertext entry = to_string content
      /\ Permutation entries
           (filter (fun e => e_user_id e = or_else user default_user)
              (journal_entries db) ++ [entry])
      /\ Sorted newest_first entries
      /\ Forall (fun e => e_user_id e = or_else user default_user) entries)
  /\ fst (handler env' db1 (get_entries other))
     = fst (handler env' db (get_entries other)).
Proof.
  rewrite handler_post_entry. intros H Hf Hu Hother.
  destruct (negb (truthy content)); [discriminate|].
  unfold insert_entry in H.
  destruct (fails env 0); [discriminate|].
  destruct (negb (is_uuid env (or_else user default_user))); [discriminate|].
  destruct (negb (Store.not_null content)); [discriminate|].
  destruct (existsb _ (journal_entries db)); [discriminate|].
  injection H as <- <- <-.
  set (entry := {| e_id := uuid env 0; e_user_id := or_else user default_user;
                   e_ciphertext := to_string content; e_iv := str "mock_iv";
                   e_created_at := db_now env 0 |}).
  split.
  - exists (merge_sort newest_first
              (filter (fun e => e_user_id e = or_else user default_user)
                 (journal_entries db ++ [entry]))), entry.
    assert (Hperm : Permutation
                      (merge_sort newest_first
                         (filter (fun e => e_user_id e = or_else user default_user)
                            (journal_entries db ++ [entry])))
                      (filter (fun e => e_user_id e = or_else user default_user)
                         (journal_entries db) ++ [entry])).
    { rewrite merge_sort_Permutation, filter_app.
      rewrite (filter_cons_True _ entry) by reflexivity. reflexivity. }
    split; [|split; [reflexivity|split; [reflexivity|split; [exact Hperm|split]]]].
    + rewrite handler_get_entries. unfold select_entries.
      rewrite Hf, Hu. reflexivity.
    + apply Sorted_merge_sort. apply _.
    + apply Forall_forall. intros e He. rewrite Hperm in He.
      apply elem_of_app in He as [He|He].
      * apply list_elem_of_filter in He. tauto.
      * apply list_elem_of_singleton in He. subst e. reflexivity.
  - rewrite !handler_get_entries. unfold select_entries.
    destruct (fails env' 0); [reflexivity|].
    destruct (negb (is_uuid env' (or_else other default_user))); [reflexivity|].
    cbn [journal_entries]. rewrite filter_app.
    rewrite (filter_cons_False _ entry) by (simpl; congruence).
    simpl. rewrite app_nil_r. reflexivity.
Qed.

Lemma journal_entry_round_trip_witness :
  fst (handler env_ok
         (snd (handler env_ok db_empty (post_entry (Some (str "u1")) (VStr (str "dear diary")))))
         (get_entries None))
  = fst (handler env_ok db_empty (get_entries None)).
Proof.
  refine (proj2 (journal_entry_round_trip env_ok env_ok db_empty _
                   (Some (str "u1")) None (VStr (str "dear diary"))
                   (str "e-0") 2000 _ _ _ _)).
  - vm_compute. reflexivity.
  - reflexivity.
  - reflexivity.
  - discriminate.
Defined.

End JournalFacts.
